(** * ThaiLawOnline chatbot: retrieval layer, prompt composer and chat endpoint

    A shallow embedding of the Python backend

      - [backend/config.py]            the configuration constants,
      - [backend/rag/vortex_client.py] the primary (Vortex) context adapter,
      - [backend/rag/notion_client.py] the supplementary (Notion) adapter,
      - [backend/rag/retriever.py]     the retrieval merge layer,
      - [backend/rag/prompts.py]       the prompt composer,
      - [backend/wordpress/auth.py]    the API-key gate,
      - [backend/wordpress/models.py]  the request and response models,
      - [backend/main.py]              the [/api/chat] handler,

    followed by the properties of these functions.

    Conventions of the embedding.

      - A Python [str] is a Rocq [string]; a character is a code point below
        U+0100 (Latin-1), and the character classes used by [str.lower],
        [str.strip] and the regular expression [\w] are the ones CPython has
        on that range.
      - A Python object read from JSON or stored in a chunk dictionary is a
        [value]; dictionaries with string keys are [gmap string value].
      - The float [overlap / len(query_tokens)] is the exact rational: all
        scores of one search share their denominator, so the order of the
        floats is the order of the rationals.
      - A function that can raise returns a [result]; [print] appends a
        [log_line] to the output. *)

From Stdlib Require Import ZArith QArith Ascii String List Permutation Lia.
From stdpp Require Import base option gmap strings list sorting pretty.

Set Warnings "-register-all".
Set Default Proof Using "Type".

Open Scope string_scope.
Open Scope list_scope.

(** ** Python objects, exceptions and built-ins *)

Module Py.

(** The objects [json.load] produces, plus floats computed by the code. *)
Inductive value :=
| PNone
| PBool (b : bool)
| PInt (z : Z)
| PFloat (q : Q)
| PStr (s : string)
| PList (l : list value)
| PDict (d : gmap string value).

(** What [open(path)] followed by [json.load(f)] can raise. *)
Inductive read_error := OSError | JSONDecodeError | UnicodeDecodeError.

(** The exceptions the modelled code raises or lets through. *)
Inductive exn :=
| ReadError (e : read_error)
| AttributeError
| TypeError
| ZeroDivisionError
| ValidationError
| KeyError
| RequestValidationError
| HTTPException (status_code : nat) (detail : string)
| CouncilError (detail : string).

Inductive result (A : Type) :=
| Ok (a : A)
| Raise (e : exn).
Arguments Ok {A} a.
Arguments Raise {A} e.

Definition rbind {A B} (r : result A) (k : A -> result B) : result B :=
  match r with
  | Ok a => k a
  | Raise e => Raise e
  end.

(** [bool(v)]: the truth value of an object. *)
Definition truthy (v : value) : bool :=
  match v with
  | PNone => false
  | PBool b => b
  | PInt z => negb (z =? 0)%Z
  | PFloat q => negb (Qnum q =? 0)%Z
  | PStr s => negb (String.eqb s "")
  | PList l => match l with [] => false | _ => true end
  | PDict d => negb (bool_decide (d = ∅))
  end.

(** [d.get(key, default)] on a dictionary. *)
Definition dict_get (d : gmap string value) (key : string) (dflt : value) : value :=
  default dflt (d !! key).

(** [obj.get(key, default)] on an arbitrary object: only a [dict] has the
    attribute [get]. *)
Definition obj_get (v : value) (key : string) (dflt : value) : result value :=
  match v with
  | PDict d => Ok (dict_get d key dflt)
  | _ => Raise AttributeError
  end.

(** Code points as numbers. *)
Definition code (c : ascii) : N := N_of_ascii c.

Definition between (lo hi : N) (c : ascii) : bool :=
  ((lo <=? code c) && (code c <=? hi))%N.

(** [c.lower()]: on Latin-1 the upper-case letters are A-Z, U+00C0-U+00D6
    and U+00D8-U+00DE, and each is 32 below its lower-case form. *)
Definition is_upper (c : ascii) : bool :=
  between 65 90 c || between 192 214 c || between 216 222 c.

Definition lower_char (c : ascii) : ascii :=
  if is_upper c then ascii_of_N (code c + 32) else c.

Fixpoint lower (s : string) : string :=
  match s with
  | EmptyString => EmptyString
  | String c s' => String (lower_char c) (lower s')
  end.

(** The class [\w] of the [re] module on [str] patterns: alphanumeric
    characters and the underscore. *)
Definition is_word_char (c : ascii) : bool :=
  between 48 57 c || between 65 90 c || between 95 95 c || between 97 122 c
  || between 170 170 c || between 178 179 c || between 181 181 c
  || between 185 186 c || between 188 190 c || between 192 214 c
  || between 216 246 c || between 248 255 c.

(** [re.findall(r"\w+", s)]: the maximal runs of word characters, left to
    right.  [cur] holds the run being read, last character first. *)
Definition flush (cur : list ascii) : list string :=
  match cur with
  | [] => []
  | _ => [string_of_list_ascii (rev cur)]
  end.

Fixpoint findall_word_go (cur : list ascii) (s : string) : list string :=
  match s with
  | EmptyString => flush cur
  | String c s' =>
      if is_word_char c then findall_word_go (c :: cur) s'
      else flush cur ++ findall_word_go [] s'
  end.

Definition findall_word (s : string) : list string := findall_word_go [] s.

(** [str.isspace] per character, as [str.strip()] uses it. *)
Definition is_space (c : ascii) : bool :=
  between 9 13 c || between 28 32 c || between 133 133 c || between 160 160 c.

Fixpoint lstrip (s : string) : string :=
  match s with
  | EmptyString => EmptyString
  | String c s' => if is_space c then lstrip s' else s
  end.

Fixpoint rstrip (s : string) : string :=
  match s with
  | EmptyString => EmptyString
  | String c s' =>
      match rstrip s' with
      | EmptyString => if is_space c then EmptyString else String c EmptyString
      | r => String c r
      end
  end.

Definition strip (s : string) : string := rstrip (lstrip s).

(** [s[:n]] for a string and a literal [n >= 0]. *)
Fixpoint str_take (n : nat) (s : string) : string :=
  match n, s with
  | O, _ => EmptyString
  | _, EmptyString => EmptyString
  | S n', String c s' => String c (str_take n' s')
  end.

(** [l[:n]] for a list and an integer [n]: a negative [n] counts from the
    end of the list. *)
Definition slice_to {A} (n : Z) (l : list A) : list A :=
  if (0 <=? n)%Z then take (Z.to_nat n) l
  else take (length l - Z.to_nat (- n)) l.

(** [v[:n]] on an object, for [n >= 0]: strings and lists can be sliced,
    the other objects raise [TypeError]. *)
Definition obj_slice_to (n : nat) (v : value) : result value :=
  match v with
  | PStr s => Ok (PStr (str_take n s))
  | PList l => Ok (PList (take n l))
  | _ => Raise TypeError
  end.

(** [a / b] on non-negative integers: true division. *)
Definition truediv (a b : nat) : result Q :=
  match b with
  | O => Raise ZeroDivisionError
  | S _ => Ok (Z.of_nat a # Pos.of_nat b)
  end.

(** [sep.join(parts)]. *)
Fixpoint join (sep : string) (parts : list string) : string :=
  match parts with
  | [] => ""
  | [p] => p
  | p :: rest => p +:+ sep +:+ join sep rest
  end.

(** [list.sort(key=..., reverse=True)]: a stable sort by decreasing key.
    Elements with equal keys keep their relative order. *)
Section Sort.
Context {A : Type} (key : A -> Q).

Fixpoint insert_desc (x : A) (l : list A) : list A :=
  match l with
  | [] => [x]
  | y :: ys =>
      if Qle_bool (key y) (key x) then x :: y :: ys
      else y :: insert_desc x ys
  end.

Definition sort_desc (l : list A) : list A := foldr insert_desc [] l.
End Sort.

End Py.

Import Py.

(** A context chunk, a database row, a stage result: a [dict] with string
    keys. *)
Abbreviation chunk := (gmap string value) (only parsing).

(** ** [backend/config.py] *)

Record config := {
  VORTEX_DB_TYPE : string;
  VORTEX_MAX_CHUNKS : Z;
  NOTION_ENABLED : bool;
  NOTION_API_KEY : string;
  NOTION_DATABASE_ID : string;
  WP_API_KEY : string
}.

Definition COUNCIL_MODELS : list string :=
  [ "openai/gpt-5.1"; "google/gemini-3-pro-preview";
    "anthropic/claude-sonnet-4.5"; "x-ai/grok-4" ].

Definition CHAIRMAN_MODEL : string := "google/gemini-3-pro-preview".

(** The configuration with every environment variable unset. *)
Definition default_config : config := {|
  VORTEX_DB_TYPE := "mysql";
  VORTEX_MAX_CHUNKS := 10;
  NOTION_ENABLED := false;
  NOTION_API_KEY := "";
  NOTION_DATABASE_ID := "";
  WP_API_KEY := ""
|}.

(** ** What the adapters read from outside the process *)

(** The outcome of [open(json_file)] followed by [json.load(f)]. *)
Inductive file_read :=
| Failed (e : read_error)
| Loaded (data : value).

(** One path yielded by [json_dir.glob("**/*.json")]. *)
Record json_file := {
  path : string;
  stem : string;
  read : file_read
}.

(** What [_search_mysql] gets from the database: [aiomysql] cannot be
    imported, something raises inside the [try] block, or the list built from
    the fetched rows. *)
Inductive mysql_reply :=
| AiomysqlMissing
| MysqlFailed
| MysqlChunks (rows : list chunk).

(** What [search_notion] gets from the Notion API once it is enabled and
    configured: [httpx] cannot be imported, something raises inside the [try]
    block, or the list [results] built from the pages. *)
Inductive notion_reply :=
| HttpxMissing
| NotionFailed
| NotionResults (results : list chunk).

Record environment := {
  (** the paths under [VORTEX_JSON_DIR] in glob order; [None] when the
      directory does not exist *)
  json_dir : option (list json_file);
  mysql : mysql_reply;
  notion : notion_reply
}.

(** The lines written by [print]. *)
Inductive log_line :=
| LogUnknownDbType (db_type : string)
| LogAiomysqlMissing
| LogMysqlError
| LogJsonDirMissing
| LogErrorReading (file : string) (e : exn)
| LogNotionNotConfigured
| LogHttpxMissing
| LogNotionError.

(** A computation that prints and then returns or raises. *)
Definition logged (A : Type) : Type := list log_line * result A.

Definition lret {A} (a : A) : logged A := ([], Ok a).

Definition lprint (l : log_line) : logged unit := ([l], Ok tt).

Definition lbind {A B} (m : logged A) (k : A -> logged B) : logged B :=
  match m with
  | (log, Ok a) => let '(log', r) := k a in (log ++ log', r)
  | (log, Raise e) => (log, Raise e)
  end.

(** ** [backend/rag/vortex_client.py] *)

Module Vortex.

(** An element of [scored_chunks]. *)
Abbreviation scored := (Q * gmap string value)%type (only parsing).

Definition tokens (s : string) : gset string :=
  list_to_set (findall_word (lower s)).

(** The inner loop [for chunk in chunks], on the list [scored_chunks] it
    appends to.  It returns the list as the loop leaves it and the exception
    that ended the loop, if any. *)
Fixpoint scan_chunks (query_tokens : gset string) (file_stem : string)
    (chunks : list value) (scored_chunks : list scored)
  : list scored * option exn :=
  match chunks with
  | [] => (scored_chunks, None)
  | chunk :: rest =>
      match obj_get chunk "content" (PStr "") with
      | Raise e => (scored_chunks, Some e)
      | Ok content =>
          if negb (truthy content) then
            scan_chunks query_tokens file_stem rest scored_chunks
          else
            match content with
            | PStr text =>
                let content_tokens := tokens text in
                let overlap := size (query_tokens ∩ content_tokens) in
                if (0 <? overlap)%nat then
                  match truediv overlap (size query_tokens) with
                  | Raise e => (scored_chunks, Some e)
                  | Ok score =>
                      match obj_get chunk "source" (PStr file_stem) with
                      | Raise e => (scored_chunks, Some e)
                      | Ok source =>
                          scan_chunks query_tokens file_stem rest
                            (scored_chunks ++
                               [(score,
                                 {[ "content" := PStr text;
                                    "source" := source;
                                    "score" := PFloat score ]})])
                      end
                  end
                else scan_chunks query_tokens file_stem rest scored_chunks
            | _ => (scored_chunks, Some AttributeError)
            end
      end
  end.

(** [data if isinstance(data, list) else [data]]. *)
Definition normalize (data : value) : list value :=
  match data with
  | PList l => l
  | _ => [data]
  end.

(** The body of the [try] block for one file. *)
Definition scan_file (query_tokens : gset string) (f : json_file)
    (scored_chunks : list scored) : list scored * option exn :=
  match read f with
  | Failed e => (scored_chunks, Some (ReadError e))
  | Loaded data =>
      scan_chunks query_tokens (stem f) (normalize data) scored_chunks
  end.

(** [except (json.JSONDecodeError, OSError)]. *)
Definition caught (e : exn) : bool :=
  match e with
  | ReadError JSONDecodeError | ReadError OSError => true
  | _ => false
  end.

(** The outer loop with its handler: an exception that is caught is printed
    and the loop goes on; any other ends the search. *)
Fixpoint scan_files (query_tokens : gset string) (files : list json_file)
    (log : list log_line) (scored_chunks : list scored)
  : logged (list scored) :=
  match files with
  | [] => (log, Ok scored_chunks)
  | f :: rest =>
      match scan_file query_tokens f scored_chunks with
      | (scored_chunks', None) =>
          scan_files query_tokens rest log scored_chunks'
      | (scored_chunks', Some e) =>
          if caught e then
            scan_files query_tokens rest
              (log ++ [LogErrorReading (path f) e]) scored_chunks'
          else (log, Raise e)
      end
  end.

Definition _search_json_files (env : environment) (query : string)
    (max_results : Z) : logged (list chunk) :=
  match json_dir env with
  | None => ([LogJsonDirMissing], Ok [])
  | Some files =>
      let query_tokens := tokens query in
      if (size query_tokens =? 0)%nat then ([], Ok [])
      else
        lbind (scan_files query_tokens files [] [])
          (fun scored_chunks =>
             lret (map snd (slice_to max_results (sort_desc fst scored_chunks))))
  end.

Definition _search_mysql (env : environment) (query : string)
    (max_results : Z) : logged (list chunk) :=
  match mysql env with
  | AiomysqlMissing =>
      lbind (lprint LogAiomysqlMissing)
        (fun _ => _search_json_files env query max_results)
  | MysqlFailed => lbind (lprint LogMysqlError) (fun _ => lret [])
  | MysqlChunks rows => lret rows
  end.

(** [max_results or VORTEX_MAX_CHUNKS]. *)
Definition or_default (max_results : option Z) (dflt : Z) : Z :=
  match max_results with
  | None => dflt
  | Some n => if (n =? 0)%Z then dflt else n
  end.

Definition search_vortex (cfg : config) (env : environment) (query : string)
    (max_results : option Z) : logged (list chunk) :=
  let max_results := or_default max_results (VORTEX_MAX_CHUNKS cfg) in
  if String.eqb (VORTEX_DB_TYPE cfg) "mysql" then
    _search_mysql env query max_results
  else if String.eqb (VORTEX_DB_TYPE cfg) "json_files" then
    _search_json_files env query max_results
  else
    lbind (lprint (LogUnknownDbType (VORTEX_DB_TYPE cfg))) (fun _ => lret []).

End Vortex.

(** ** [backend/rag/notion_client.py] *)

Module Notion.

Definition search_notion (cfg : config) (env : environment) (query : string)
    (max_results : Z) : logged (list chunk) :=
  if negb (NOTION_ENABLED cfg) then lret []
  else if String.eqb (NOTION_API_KEY cfg) ""
          || String.eqb (NOTION_DATABASE_ID cfg) "" then
    lbind (lprint LogNotionNotConfigured) (fun _ => lret [])
  else
    match notion env with
    | HttpxMissing => lbind (lprint LogHttpxMissing) (fun _ => lret [])
    | NotionFailed => lbind (lprint LogNotionError) (fun _ => lret [])
    | NotionResults results => lret (slice_to max_results results)
    end.

(** The default of the parameter [max_results]. *)
Definition default_max_results : Z := 5.

End Notion.

Import Vortex Notion.

(** ** [backend/rag/prompts.py]: the two templates *)

Definition nl : string := String "010"%char EmptyString.
Definition dq : string := String "034"%char EmptyString.

(** The text made of the given lines, each ended by a newline. *)
Fixpoint unlines (ls : list string) : string :=
  match ls with
  | [] => ""
  | l :: rest => l +:+ nl +:+ unlines rest
  end.

(** The part of [THAI_LEGAL_SYSTEM_PROMPT] before the field [{context}]. *)
Definition THAI_LEGAL_SYSTEM_PROMPT_head : string :=
  unlines [
    "You are a Thai legal expert assistant for thailawonline.com. You provide accurate, well-cited answers about Thai law based on retrieved legal documents.";
    "";
    "**Instructions:**";
    "- Answer based primarily on the retrieved legal documents provided below.";
    "- Cite specific law sections (e.g., " +:+ dq +:+ "Civil and Commercial Code Section 420" +:+ dq
      +:+ ") and Supreme Court case numbers (e.g., " +:+ dq +:+ "Supreme Court Decision No. 1234/2565" +:+ dq +:+ ").";
    "- If the retrieved documents do not contain sufficient information to answer, clearly state this and provide general guidance.";
    "- Respond in the same language the user uses (Thai or English).";
    "- Be precise and professional. Avoid speculation beyond what the legal texts support.";
    "- When multiple legal provisions apply, explain how they interact.";
    "";
    "**Retrieved Legal Documents:**" ].

(** [THAI_LEGAL_SYSTEM_PROMPT.format(context=context)]: the template has
    one replacement field and ends with a newline after it. *)
Definition THAI_LEGAL_SYSTEM_PROMPT (context : string) : string :=
  THAI_LEGAL_SYSTEM_PROMPT_head +:+ context +:+ nl.

Definition NO_CONTEXT_SYSTEM_PROMPT : string :=
  unlines [
    "You are a Thai legal expert assistant for thailawonline.com. You provide accurate answers about Thai law.";
    "";
    "**Instructions:**";
    "- Answer questions about Thai law to the best of your knowledge.";
    "- Cite specific law sections and court case numbers when possible.";
    "- Respond in the same language the user uses (Thai or English).";
    "- Be precise and professional.";
    "- Clearly indicate when you are providing general guidance rather than citing specific provisions.";
    "";
    "Note: No specific legal documents were retrieved for this query. Answer based on your general knowledge of Thai law." ].

(** The separator between two documents of the context. *)
Definition separator : string := nl +:+ nl +:+ "---" +:+ nl +:+ nl.

(** ** [backend/wordpress/models.py] *)

(** A [str] field of a model accepts a string and nothing else. *)
Definition str_field (v : value) : result string :=
  match v with
  | PStr s => Ok s
  | _ => Raise ValidationError
  end.

Record ChatRequest := {
  message : string;
  session_id : string
}.

(** Validation of a request body against [ChatRequest]:
    [message] is required with 1 to 5000 characters, [session_id] defaults
    to the empty string and has at most 200 characters. *)
Definition ChatRequest_validate (body : gmap string value) : result ChatRequest :=
  match body !! "message" with
  | None => Raise ValidationError
  | Some v =>
      rbind (str_field v) (fun m =>
      if (String.length m <? 1)%nat || (5000 <? String.length m)%nat
      then Raise ValidationError
      else
        rbind (match body !! "session_id" with
               | None => Ok ""
               | Some v' => str_field v'
               end) (fun s =>
        if (200 <? String.length s)%nat then Raise ValidationError
        else Ok {| message := m; session_id := s |}))
  end.

Record SourceCitation := {
  source : string;
  excerpt : string
}.

(** [SourceCitation(source=..., excerpt=...)]. *)
Definition SourceCitation_new (src exc : value) : result SourceCitation :=
  rbind (str_field src) (fun s =>
  rbind (str_field exc) (fun e =>
  Ok {| source := s; excerpt := e |})).

(** The field [session_id] of the response is [response_session_id] here:
    [ChatRequest] has a field of that name already. *)
Record ChatResponse := {
  answer : string;
  sources : list SourceCitation;
  response_session_id : string;
  council_metadata : gmap string value
}.

(** [ChatResponse(answer=..., sources=..., session_id=..., council_metadata=...)]. *)
Definition ChatResponse_new (ans : value) (srcs : list SourceCitation)
    (sid : string) (meta : gmap string value) : result ChatResponse :=
  rbind (str_field ans) (fun a =>
  Ok {| answer := a; sources := srcs; response_session_id := sid;
        council_metadata := meta |}).

(** ** The request as the handler sees it *)

(** The header list of the request; names are in lower case, as the server
    delivers them. *)
Record Request := {
  headers : list (string * string)
}.

(** [request.headers.get(name)]: the value of the first header of that name,
    compared without case. *)
Definition headers_get (request : Request) (name : string) : option string :=
  snd <$> find (fun kv => String.eqb (fst kv) (lower name)) (headers request).

(** The status of the response to a request that ended with an exception:
    the one an [HTTPException] carries, 422 for a body that failed
    validation, 500 for anything else. *)
Definition http_status (e : exn) : nat :=
  match e with
  | HTTPException status_code _ => status_code
  | RequestValidationError => 422
  | _ => 500
  end.

(** The calls the handler makes to its collaborators, in order. *)
Inductive call :=
| CallUuid4
| CallGetConversation (sid : string)
| CallCreateConversation (sid : string)
| CallAddUserMessage (sid : string) (content : string)
| CallRetrieve (query : string)
| CallCouncil (query : string)
| CallAddAssistantMessage (sid : string).

Section Backend.

(** [str(v)] for an object that is not a string (numbers, [None], lists,
    dictionaries): the interpreter's rendering, left open here. *)
Variable repr : value -> string.

(** What an f-string field [{v}] expands to. *)
Definition format_value (v : value) : string :=
  match v with
  | PStr s => s
  | _ => repr v
  end.

(** *** [backend/rag/prompts.py] *)

(** The loop [for i, chunk in enumerate(context_chunks, 1)], on the list
    [context_parts] it appends to; [i] is the number of the next chunk. *)
Fixpoint number_chunks (i : nat) (context_chunks : list chunk)
    (context_parts : list string) : list string :=
  match context_chunks with
  | [] => context_parts
  | chunk :: rest =>
      let source := dict_get chunk "source" (PStr "Unknown") in
      let content := dict_get chunk "content" (PStr "") in
      number_chunks (S i) rest
        (context_parts ++
           ["[Document " +:+ pretty i +:+ "] (Source: " +:+ format_value source
              +:+ ")" +:+ nl +:+ format_value content])
  end.

Definition build_system_prompt (context_chunks : list chunk) : string :=
  match context_chunks with
  | [] => NO_CONTEXT_SYSTEM_PROMPT
  | _ =>
      let context_parts := number_chunks 1 context_chunks [] in
      let context_text := join separator context_parts in
      THAI_LEGAL_SYSTEM_PROMPT context_text
  end.

(** *** [backend/rag/retriever.py] *)

Variable cfg : config.
Variable env : environment.

(** [asyncio.gather] runs both searches and returns both lists, or raises
    what a search raised. *)
Definition retrieve_context (query : string) : logged (list chunk) :=
  let vortex_task := search_vortex cfg env query None in
  let notion_task := search_notion cfg env query Notion.default_max_results in
  let '(vortex_log, vortex_r) := vortex_task in
  let '(notion_log, notion_r) := notion_task in
  (vortex_log ++ notion_log,
   rbind vortex_r (fun vortex_results =>
   rbind notion_r (fun notion_results =>
   let all_chunks := vortex_results ++ notion_results in
   Ok all_chunks))).

Definition retrieve_and_build_messages (query : string)
  : logged (list (gmap string value) * list chunk) :=
  lbind (retrieve_context query) (fun context_chunks =>
  let system_prompt := build_system_prompt context_chunks in
  let messages : list (gmap string value) :=
    [ {[ "role" := PStr "system"; "content" := PStr system_prompt ]};
      {[ "role" := PStr "user"; "content" := PStr query ]} ] in
  lret (messages, context_chunks)).

(** *** The collaborators of the handler *)

(** [backend/storage.py] and [backend/council.py] are used through their
    interfaces: a conversation store with its four operations, and the
    council run, which returns the three stage results and the metadata or
    raises. *)
Variable Store : Type.
Variable Conversation : Type.
Variable get_conversation : string -> Store -> option Conversation.
Variable create_conversation : string -> Store -> Store.
Variable add_user_message : string -> string -> Store -> Store.
Variable add_assistant_message :
  string -> list (gmap string value) -> list (gmap string value) ->
  gmap string value -> Store -> Store.
Variable run_full_council :
  string -> list (gmap string value) ->
  result (list (gmap string value) * list (gmap string value)
          * gmap string value * gmap string value).
(** The [n]-th identifier drawn from [uuid.uuid4()]. *)
Variable uuid4 : nat -> string.

(** The state a request runs in. *)
Record world := {
  store : Store;
  stdout : list log_line;
  calls : list call;
  uuids_drawn : nat
}.

(** A handler step: it returns or raises, and leaves a state. *)
Definition M (A : Type) : Type := world -> result A * world.

Definition ret {A} (a : A) : M A := fun w => (Ok a, w).

Definition raise {A} (e : exn) : M A := fun w => (Raise e, w).

Definition bind {A B} (m : M A) (k : A -> M B) : M B :=
  fun w =>
    match m w with
    | (Ok a, w') => k a w'
    | (Raise e, w') => (Raise e, w')
    end.

Notation "'do' x <- m ; k" := (bind m (fun x => k))
  (at level 10, x name, m at level 100, k at level 200, only parsing).

Definition lift {A} (r : result A) : M A := fun w => (r, w).

Definition called (c : call) : M unit :=
  fun w => (Ok tt, {| store := store w; stdout := stdout w;
                      calls := calls w ++ [c]; uuids_drawn := uuids_drawn w |}).

Definition update_store (f : Store -> Store) : M unit :=
  fun w => (Ok tt, {| store := f (store w); stdout := stdout w;
                      calls := calls w; uuids_drawn := uuids_drawn w |}).

Definition run_logged {A} (m : logged A) : M A :=
  fun w => (snd m, {| store := store w; stdout := stdout w ++ fst m;
                      calls := calls w; uuids_drawn := uuids_drawn w |}).

Definition draw_uuid4 : M string :=
  fun w => (Ok (uuid4 (uuids_drawn w)),
            {| store := store w; stdout := stdout w;
               calls := calls w ++ [CallUuid4];
               uuids_drawn := S (uuids_drawn w) |}).

Fixpoint mapM {A B} (f : A -> result B) (l : list A) : result (list B) :=
  match l with
  | [] => Ok []
  | x :: rest =>
      rbind (f x) (fun y => rbind (mapM f rest) (fun ys => Ok (y :: ys)))
  end.

(** *** [backend/wordpress/auth.py] *)

Definition validate_api_key (request : Request) : M unit :=
  if String.eqb (WP_API_KEY cfg) "" then ret tt
  else
    let api_key := headers_get request "X-API-Key" in
    match api_key with
    | None => raise (HTTPException 401 "Invalid or missing API key")
    | Some key =>
        if String.eqb key "" || negb (String.eqb key (WP_API_KEY cfg))
        then raise (HTTPException 401 "Invalid or missing API key")
        else ret tt
    end.

(** *** [backend/main.py] *)

(** The citations built from the retrieved chunks
    (the comprehension of step 4). *)
Definition citation_of (chunk : gmap string value) : result SourceCitation :=
  rbind (obj_slice_to 200 (dict_get chunk "content" (PStr ""))) (fun exc =>
  SourceCitation_new (dict_get chunk "source" (PStr "Unknown")) exc).

Definition build_sources (context_chunks : list chunk)
  : result (list SourceCitation) :=
  mapM citation_of context_chunks.

(** [r["model"]]. *)
Definition subscript (d : gmap string value) (key : string) : result value :=
  match d !! key with
  | Some v => Ok v
  | None => Raise KeyError
  end.

Definition wordpress_chat (request : Request) (body : ChatRequest)
  : M ChatResponse :=
  do _ <- validate_api_key request ;
  let user_message := strip (message body) in
  if String.eqb user_message "" then
    raise (HTTPException 400 "Message cannot be empty")
  else
    do sid <- (if String.eqb (session_id body) "" then draw_uuid4
               else ret (session_id body)) ;
    do _ <- called (CallGetConversation sid) ;
    do conversation <- (fun w => (Ok (get_conversation sid (store w)), w)) ;
    do _ <- match conversation with
         | None => do _ <- called (CallCreateConversation sid) ;
                   update_store (create_conversation sid)
         | Some _ => ret tt
         end ;
    do _ <- called (CallAddUserMessage sid user_message) ;
    do _ <- update_store (add_user_message sid user_message) ;
    do _ <- called (CallRetrieve user_message) ;
    do mc <- run_logged (retrieve_and_build_messages user_message) ;
    let '(messages, context_chunks) := mc in
    do _ <- called (CallCouncil user_message) ;
    do stages <- lift (run_full_council user_message messages) ;
    let '(stage1_results, stage2_results, stage3_result, metadata) := stages in
    let final_answer := dict_get stage3_result "response" (PStr "") in
    do srcs <- lift (build_sources context_chunks) ;
    do _ <- called (CallAddAssistantMessage sid) ;
    do _ <- update_store
           (add_assistant_message sid stage1_results stage2_results
              stage3_result) ;
    do models_used <- lift (mapM (fun r => subscript r "model") stage1_results) ;
    lift (ChatResponse_new final_answer srcs sid
            {[ "models_used" := PList models_used;
               "chairman" := dict_get stage3_result "model" (PStr "");
               "aggregate_rankings" :=
                 dict_get metadata "aggregate_rankings" (PList []) ]}).

(** The route [POST /api/chat]: the body is validated against [ChatRequest]
    before the handler is called; for a body that fails, the handler does
    not run. *)
Definition api_chat (request : Request) (body : gmap string value)
  : M ChatResponse :=
  match ChatRequest_validate body with
  | Raise _ => raise RequestValidationError
  | Ok chat_request => wordpress_chat request chat_request
  end.

End Backend.

(** ** Rank aggregation of the council *)

Module Council.

(** Modelled from the spec: [backend/council.py], which defines
    [calculate_aggregate_rankings], is not among the sources.  A
    Stage2Ranking is a judge and its ordered list of labels, best first; an
    AggregateRanking is a model and its score. *)
Record Stage2Ranking := {
  judge : string;
  ranking : list string
}.

Record AggregateRanking := {
  model : string;
  score : Q
}.

(** Modelled from the spec: the points of one ranking of [n] labels.  The
    label at the 1-indexed position [k] gives [n - k + 1] points to the model
    behind it; [totals] holds the points counted so far. *)
Fixpoint award (label_to_model : gmap string string) (n k : nat)
    (labels : list string) (totals : gmap string nat) : gmap string nat :=
  match labels with
  | [] => totals
  | label :: rest =>
      let totals' :=
        match label_to_model !! label with
        | Some m => <[ m := default 0 (totals !! m) + (n - k + 1) ]> totals
        | None => totals
        end in
      award label_to_model n (S k) rest totals'
  end.

(** Modelled from the spec: the points of every model, summed across all
    rankings. *)
Definition tally (label_to_model : gmap string string)
    (stage2 : list Stage2Ranking) : gmap string nat :=
  foldl (fun totals r =>
           award label_to_model (length (ranking r)) 1 (ranking r) totals)
        ∅ stage2.

(** Modelled from the spec: the worker models behind the labels, which are
    the models with a non-error Stage1Response, in roster order. *)
Definition workers (roster : list string)
    (label_to_model : gmap string string) : list string :=
  filter (fun m => m ∈ (map_img label_to_model : gset string)) roster.

(** Modelled from the spec: [aggregate(stage2, label_to_model)], one entry
    per worker, sorted by decreasing total with a stable sort from roster
    order. *)
Definition aggregate (roster : list string) (stage2 : list Stage2Ranking)
    (label_to_model : gmap string string) : list AggregateRanking :=
  let totals := tally label_to_model stage2 in
  sort_desc score
    (map (fun m => {| model := m;
                      score := inject_Z (Z.of_nat (default 0 (totals !! m))) |})
         (workers roster label_to_model)).

(** The points section 4.6 gives model [m] in one ranking, written as a
    sum over the positions of the ranking. *)
Definition ranking_points (label_to_model : gmap string string)
    (m : string) (labels : list string) : nat :=
  sum_list (imap (fun i label =>
                    if bool_decide (label_to_model !! label = Some m)
                    then length labels - S i + 1 else 0) labels).

Definition borda_points (label_to_model : gmap string string)
    (stage2 : list Stage2Ranking) (m : string) : nat :=
  sum_list_with (fun r => ranking_points label_to_model m (ranking r)) stage2.

End Council.

(** ** Concrete collaborators, corpora and requests *)

Module Examples.

Import Council.

(** A rendering of non-string objects, for the examples. *)
Definition repr0 (v : value) : string := "<object>".

(** An in-memory conversation store: session identifiers with their
    messages, latest first. *)
Definition store0 : Type := list (string * list string).

Definition get_conversation0 (sid : string) (s : store0) : option (list string) :=
  snd <$> find (fun kv => String.eqb (fst kv) sid) s.

Definition create_conversation0 (sid : string) (s : store0) : store0 :=
  (sid, []) :: s.

Definition append0 (sid : string) (msg : string) (s : store0) : store0 :=
  map (fun kv => if String.eqb (fst kv) sid then (fst kv, msg :: snd kv) else kv) s.

Definition add_user_message0 (sid content : string) (s : store0) : store0 :=
  append0 sid content s.

Definition add_assistant_message0 (sid : string)
    (stage1 stage2 : list (gmap string value)) (stage3 : gmap string value)
    (s : store0) : store0 :=
  append0 sid (format_value repr0 (dict_get stage3 "response" (PStr ""))) s.

(** A council whose two first models answer and whose chairman writes the
    final answer. *)
Definition run_full_council0 (query : string)
    (messages : list (gmap string value))
  : result (list (gmap string value) * list (gmap string value)
            * gmap string value * gmap string value) :=
  Ok ([ {[ "model" := PStr "openai/gpt-5.1"; "response" := PStr "Answer A" ]};
        {[ "model" := PStr "google/gemini-3-pro-preview";
           "response" := PStr "Answer B" ]} ],
      [],
      {[ "model" := PStr CHAIRMAN_MODEL; "response" := PStr "Final answer" ]},
      {[ "aggregate_rankings" := PList [] ]}).

Definition uuid0 (n : nat) : string := "session-" +:+ pretty n.

Definition world0 : world store0 :=
  {| store := []; stdout := []; calls := []; uuids_drawn := 0 |}.

(** The corpus of one record of the specification. *)
Definition doc1 : json_file := {|
  path := "data/vortex/doc1.json";
  stem := "doc1";
  read := Loaded (PDict {[ "content" := PStr "alpha beta";
                           "source" := PStr "Doc1" ]})
|}.

Definition corpus_env (files : list json_file) : environment :=
  {| json_dir := Some files; mysql := AiomysqlMissing; notion := NotionFailed |}.

Definition json_config : config := {|
  VORTEX_DB_TYPE := "json_files";
  VORTEX_MAX_CHUNKS := 10;
  NOTION_ENABLED := false;
  NOTION_API_KEY := "";
  NOTION_DATABASE_ID := "";
  WP_API_KEY := ""
|}.

(** A corpus with a file that cannot be parsed, an object without content
    and two records that match. *)
Definition broken : json_file :=
  {| path := "data/vortex/broken.json"; stem := "broken";
     read := Failed JSONDecodeError |}.

Definition mixed : json_file := {|
  path := "data/vortex/mixed.json";
  stem := "mixed";
  read := Loaded (PList [
    PDict {[ "source" := PStr "No content" ]};
    PDict {[ "content" := PStr "gamma" ]};
    PDict {[ "content" := PStr "Alpha, GAMMA."; "source" := PStr "Both" ]} ])
|}.

(** A file holding an object without content, and one holding a list of
    numbers. *)
Definition empty_object : json_file :=
  {| path := "data/vortex/empty.json"; stem := "empty";
     read := Loaded (PDict ∅) |}.

Definition numbers : json_file :=
  {| path := "data/vortex/numbers.json"; stem := "numbers";
     read := Loaded (PList [PInt 1; PInt 2]) |}.

(** A primary chunk with a low score and a supplementary one with a high
    score. *)
Definition low_chunk : gmap string value :=
  {[ "content" := PStr "Section 420"; "source" := PStr "Civil Code";
     "score" := PFloat (1 # 10) ]}.

Definition high_chunk : gmap string value :=
  {[ "content" := PStr "Section 420"; "source" := PStr "Notion: torts";
     "score" := PFloat (9 # 10) ]}.

Definition merge_config : config := {|
  VORTEX_DB_TYPE := "mysql";
  VORTEX_MAX_CHUNKS := 10;
  NOTION_ENABLED := true;
  NOTION_API_KEY := "key";
  NOTION_DATABASE_ID := "db";
  WP_API_KEY := ""
|}.

Definition merge_env : environment :=
  {| json_dir := None; mysql := MysqlChunks [low_chunk];
     notion := NotionResults [high_chunk; low_chunk] |}.

(** A deployment with an API key, and requests with and without it. *)
Definition keyed_config : config := {|
  VORTEX_DB_TYPE := "json_files";
  VORTEX_MAX_CHUNKS := 10;
  NOTION_ENABLED := false;
  NOTION_API_KEY := "";
  NOTION_DATABASE_ID := "";
  WP_API_KEY := "secret"
|}.

Definition anonymous_request : Request := {| headers := [] |}.

Definition keyed_request : Request :=
  {| headers := [("content-type", "application/json"); ("x-api-key", "secret")] |}.

Definition blank_body : gmap string value := {[ "message" := PStr "   " ]}.

Definition blank_request : ChatRequest := {| message := "   "; session_id := "" |}.

Definition alpha_request : ChatRequest :=
  {| message := " alpha gamma "; session_id := "" |}.

(** The handler and the route with these collaborators. *)
Definition chat0 (cfg : config) (env : environment)
  : Request -> ChatRequest -> M store0 ChatResponse :=
  wordpress_chat repr0 cfg env store0 (list string) get_conversation0
    create_conversation0 add_user_message0 add_assistant_message0
    run_full_council0 uuid0.

Definition api_chat0 (cfg : config) (env : environment)
  : Request -> gmap string value -> M store0 ChatResponse :=
  api_chat repr0 cfg env store0 (list string) get_conversation0
    create_conversation0 add_user_message0 add_assistant_message0
    run_full_council0 uuid0.

(** The two-judge scenario of the specification: each judge puts its own
    answer first. *)
Definition two_labels : gmap string string :=
  {[ "Response A" := "openai/gpt-5.1";
     "Response B" := "google/gemini-3-pro-preview" ]}.

Definition two_rankings : list Stage2Ranking :=
  [ {| judge := "openai/gpt-5.1"; ranking := ["Response A"; "Response B"] |};
    {| judge := "google/gemini-3-pro-preview";
       ranking := ["Response B"; "Response A"] |} ].

End Examples.

(** ** The vocabulary of the statements *)

(** [x] occurs in [l] at a position before an occurrence of [y]. *)
Definition before {A} (x y : A) (l : list A) : Prop := [x; y] `sublist_of` l.

(** [l] is sorted by decreasing key. *)
Definition descending {A} (key : A -> Q) (l : list A) : Prop :=
  StronglySorted (fun x y => (key y <= key x)%Q) l.

(** The elements of [l] whose key equals [q]. *)
Definition with_key {A} (key : A -> Q) (q : Q) (l : list A) : list A :=
  filter (fun x => Qeq_bool (key x) q) l.

(** [needle] occurs in [text]. *)
Fixpoint occurs_in (needle text : string) : bool :=
  String.prefix needle text ||
  match text with
  | EmptyString => false
  | String _ rest => occurs_in needle rest
  end.

(** The local-corpus search as the specification words it: the records of
    the corpus in the order they are met, the overlap ratio of a record, and
    the chunks of the records with a non-empty overlap. *)
Module LocalCorpusSpec.

(** The records of the corpus, each with the stem of its file. *)
Definition records (files : list json_file) : list (string * value) :=
  flat_map (fun f =>
              match read f with
              | Loaded data => map (pair (stem f)) (normalize data)
              | Failed _ => []
              end) files.

(** The text of a record: its content when that is a string. *)
Definition record_text (rec : value) : string :=
  match rec with
  | PDict d => match d !! "content" with Some (PStr s) => s | _ => "" end
  | _ => ""
  end.

(** The source label of a record: its own, or the stem of its file. *)
Definition record_source (file_stem : string) (rec : value) : value :=
  match rec with
  | PDict d => default (PStr file_stem) (d !! "source")
  | _ => PStr file_stem
  end.

(** |intersection of query and content tokens|. *)
Definition overlap (query : string) (rec : value) : nat :=
  size (tokens query ∩ tokens (record_text rec)).

(** |intersection| / |query tokens|. *)
Definition ratio (query : string) (rec : value) : Q :=
  Z.of_nat (overlap query rec) # Pos.of_nat (size (tokens query)).

Definition result_chunk (query : string) (sr : string * value) : scored :=
  (ratio query (snd sr),
   {[ "content" := PStr (record_text (snd sr));
      "source" := record_source (fst sr) (snd sr);
      "score" := PFloat (ratio query (snd sr)) ]}).

(** The scored chunks of the records that share a token with the query, in
    the order the records are met. *)
Definition candidates (query : string) (files : list json_file) : list scored :=
  map (result_chunk query)
      (filter (fun sr => 0 < overlap query (snd sr)) (records files)).

(** A record the scan accepts: an object whose content is a string, or is
    missing or empty. *)
Definition well_formed (rec : value) : bool :=
  match rec with
  | PDict d =>
      match d !! "content" with
      | None => true
      | Some (PStr _) => true
      | Some v => negb (truthy v)
      end
  | _ => false
  end.

(** A file that was read and parsed and holds well-formed records only. *)
Definition well_formed_file (f : json_file) : bool :=
  match read f with
  | Loaded data => forallb well_formed (normalize data)
  | Failed _ => false
  end.

(** A file that is well-formed, or that could not be opened or parsed. *)
Definition tolerated_file (f : json_file) : bool :=
  match read f with
  | Loaded data => forallb well_formed (normalize data)
  | Failed e => caught (ReadError e)
  end.

(** One warning for each file that could not be opened or parsed. *)
Definition warnings (files : list json_file) : list log_line :=
  flat_map (fun f =>
              match read f with
              | Failed e => [LogErrorReading (path f) (ReadError e)]
              | Loaded _ => []
              end) files.

End LocalCorpusSpec.

(** The block of the grounding text for the chunk numbered [i]. *)
Definition document_block (repr : value -> string) (i : nat)
    (chunk : gmap string value) : string :=
  "[Document " +:+ pretty i +:+ "] (Source: "
  +:+ format_value repr (dict_get chunk "source" (PStr "Unknown"))
  +:+ ")" +:+ nl
  +:+ format_value repr (dict_get chunk "content" (PStr "")).

(** A key is configured and the header [X-API-Key] is missing or differs
    from it. *)
Definition key_rejected (cfg : config) (request : Request) : Prop :=
  WP_API_KEY cfg ≠ "" /\
  (headers_get request "X-API-Key" = None \/
   exists key, headers_get request "X-API-Key" = Some key
               /\ key ≠ WP_API_KEY cfg).

(** ** [backend/main.py]: the streaming chat endpoint *)

Section Streaming.
Context (repr : value -> string) (cfg : config) (env : environment).
Context (Store Conversation : Type).
Context (get_conversation : string -> Store -> option Conversation).
Context (create_conversation : string -> Store -> Store).
Context (add_user_message : string -> string -> Store -> Store).
Context (add_assistant_message :
  string -> list (gmap string value) -> list (gmap string value) ->
  gmap string value -> Store -> Store).
(** The three stages of [backend/council.py], each returning or raising. *)
Context (stage1_collect_responses :
  string -> list (gmap string value) -> result (list (gmap string value))).
Context (stage2_collect_rankings :
  string -> list (gmap string value) ->
  result (list (gmap string value) * gmap string value)).
Context (stage3_synthesize_final :
  string -> list (gmap string value) -> list (gmap string value) ->
  result (gmap string value)).
Context (uuid4 : nat -> string).
(** [str(e)] for an exception. *)
Context (exn_text : exn -> string).

(** The payload of one server-sent event, as given to [json.dumps]. *)
Definition status_event (text : string) : gmap string value :=
  {[ "type" := PStr "status"; "message" := PStr text ]}.

Definition stage1_complete_event (count : nat) : gmap string value :=
  {[ "type" := PStr "stage1_complete"; "count" := PInt (Z.of_nat count) ]}.

Definition stage2_complete_event : gmap string value :=
  {[ "type" := PStr "stage2_complete" ]}.

Definition complete_event (answer_text : value) (srcs : list value)
    (sid : string) : gmap string value :=
  {[ "type" := PStr "complete";
     "data" := PDict {[ "answer" := answer_text;
                        "sources" := PList srcs;
                        "session_id" := PStr sid ]} ]}.

Definition error_event (e : exn) : gmap string value :=
  {[ "type" := PStr "error"; "message" := PStr (exn_text e) ]}.

(** A step of the generator: it returns or raises, and leaves a state and
    the events yielded so far. *)
Definition Gen (A : Type) : Type :=
  world Store * list (gmap string value) ->
  result A * (world Store * list (gmap string value)).

Definition gbind {A B} (m : Gen A) (k : A -> Gen B) : Gen B :=
  fun st =>
    match m st with
    | (Ok a, st') => k a st'
    | (Raise e, st') => (Raise e, st')
    end.

Notation "'gen' x <- m ; k" := (gbind m (fun x => k))
  (at level 10, x name, m at level 100, k at level 200, only parsing).

Definition yield (event : gmap string value) : Gen unit :=
  fun st => (Ok tt, (fst st, snd st ++ [event])).

(** A handler step run inside the generator. *)
Definition run (A : Type) (m : M Store A) : Gen A :=
  fun st => let '(r, w') := m (fst st) in (r, (w', snd st)).
Arguments run {A} m.

(** One entry of the list [sources] of the stream. *)
Definition stream_source (c : gmap string value) : result value :=
  rbind (obj_slice_to 200 (dict_get c "content" (PStr ""))) (fun exc =>
  Ok (PDict {[ "source" := dict_get c "source" (PStr "Unknown");
               "excerpt" := exc ]})).

(** The body of the [try] block of [event_generator]. *)
Definition event_generator_body (sid user_message : string) : Gen unit :=
  gen _ <- run (update_store Store (add_user_message sid user_message)) ;
  gen _ <- yield (status_event "Retrieving legal documents...") ;
  gen mc <- run (run_logged Store
                   (retrieve_and_build_messages repr cfg env user_message)) ;
  let '(messages, context_chunks) := mc in
  gen _ <- yield (status_event "Consulting legal experts...") ;
  gen stage1_results <-
    run (lift Store (stage1_collect_responses user_message messages)) ;
  gen _ <- yield (stage1_complete_event (length stage1_results)) ;
  gen _ <- yield (status_event "Evaluating responses...") ;
  gen ranked <-
    run (lift Store (stage2_collect_rankings user_message stage1_results)) ;
  let '(stage2_results, label_to_model) := ranked in
  gen _ <- yield stage2_complete_event ;
  gen _ <- yield (status_event "Synthesizing final answer...") ;
  gen stage3_result <-
    run (lift Store
           (stage3_synthesize_final user_message stage1_results
              stage2_results)) ;
  gen srcs <- run (lift Store (mapM stream_source context_chunks)) ;
  gen _ <- run (update_store Store
                  (add_assistant_message sid stage1_results stage2_results
                     stage3_result)) ;
  yield (complete_event (dict_get stage3_result "response" (PStr "")) srcs sid).

(** [event_generator], read to its end: the events of the [try] block,
    followed by an error event when the block raised. *)
Definition event_generator (sid user_message : string) (w : world Store)
  : list (gmap string value) * world Store :=
  match event_generator_body sid user_message (w, []) with
  | (Ok _, (w', events)) => (events, w')
  | (Raise e, (w', events)) => (events ++ [error_event e], w')
  end.

(** The handler of [POST /api/chat/stream]; its value is the sequence of
    events of the response. *)
Definition wordpress_chat_stream (request : Request) (body : ChatRequest)
  : M Store (list (gmap string value)) :=
  bind Store (validate_api_key cfg Store request) (fun _ =>
  let user_message := strip (message body) in
  if String.eqb user_message "" then
    raise Store (HTTPException 400 "Message cannot be empty")
  else
    bind Store (if String.eqb (session_id body) "" then draw_uuid4 Store uuid4
                else ret Store (session_id body)) (fun sid =>
    bind Store (fun w => (Ok (get_conversation sid (store Store w)), w))
      (fun conversation =>
    bind Store match conversation with
               | None => update_store Store (create_conversation sid)
               | Some _ => ret Store tt
               end (fun _ =>
    fun w => let '(events, w') := event_generator sid user_message w in
             (Ok events, w'))))).

End Streaming.

(** ** [backend/config.py] and [backend/main.py]: the allowed origins *)

Module Origins.

(** [s.split(sep)] for a separator of one character: the pieces between
    the separators, of which there is always at least one. *)
Fixpoint split (sep : ascii) (s : string) : list string :=
  match s with
  | EmptyString => [""]
  | String c s' =>
      if Ascii.eqb c sep then "" :: split sep s'
      else match split sep s' with
           | piece :: pieces => String c piece :: pieces
           | [] => [String c ""]
           end
  end.

(** [[origin.strip() for origin in raw.split(",") if origin.strip()]]. *)
Definition parse_origins (raw : string) : list string :=
  flat_map (fun origin =>
              if negb (String.eqb (strip origin) "") then [strip origin]
              else [])
           (split "," raw).

(** [ALLOWED_ORIGINS], from the environment variable of that name:
    [None] when it is not set. *)
Definition ALLOWED_ORIGINS (getenv : option string) : list string :=
  parse_origins
    (default "https://thailawonline.com,https://www.thailawonline.com" getenv).

(** [cors_origins] of [backend/main.py]. *)
Definition cors_origins (getenv : option string) : list string :=
  ALLOWED_ORIGINS getenv ++ ["http://localhost:5173"; "http://localhost:3000"].

(** The character [c] occurs in [s]. *)
Fixpoint has_char (c : ascii) (s : string) : bool :=
  match s with
  | EmptyString => false
  | String c' s' => Ascii.eqb c' c || has_char c s'
  end.

End Origins.

(** ** [backend/rag/notion_client.py]: from the replies of the API to the
    result list *)

Module NotionPages.

(** A value decoded from a JSON reply.  An object keeps its items in the
    order of the reply, which is the order [dict.values()] follows; its keys
    are distinct. *)
Inductive json :=
| JNull
| JBool (b : bool)
| JNum (q : Q)
| JStr (s : string)
| JArr (items : list json)
| JObj (fields : list (string * json)).

Definition field (fields : list (string * json)) (key : string) : option json :=
  snd <$> find (fun kv => String.eqb (fst kv) key) fields.

(** [v.get(key, default)] for a string [key]. *)
Definition jget (v : json) (key : string) (dflt : json) : result json :=
  match v with
  | JObj fields => Ok (default dflt (field fields key))
  | _ => Raise AttributeError
  end.

(** [v.get(key, default)] for a [key] that is itself a decoded value: a list
    or an object cannot be hashed, and a key that is not a string is not in
    a decoded object. *)
Definition jget_at (v key dflt : json) : result json :=
  match v with
  | JObj fields =>
      match key with
      | JStr k => Ok (default dflt (field fields k))
      | JArr _ | JObj _ => Raise TypeError
      | _ => Ok dflt
      end
  | _ => Raise AttributeError
  end.

(** [v[key]] for a string [key]. *)
Definition jsubscript (v : json) (key : string) : result json :=
  match v with
  | JObj fields =>
      match field fields key with
      | Some x => Ok x
      | None => Raise KeyError
      end
  | _ => Raise TypeError
  end.

(** [v.values()]. *)
Definition jvalues (v : json) : result (list json) :=
  match v with
  | JObj fields => Ok (map snd fields)
  | _ => Raise AttributeError
  end.

Fixpoint chars (s : string) : list json :=
  match s with
  | EmptyString => []
  | String c s' => JStr (String c "") :: chars s'
  end.

(** The elements a [for] loop over [v] meets: the items of a list, the
    characters of a string, the keys of an object. *)
Definition jiter (v : json) : result (list json) :=
  match v with
  | JArr items => Ok items
  | JStr s => Ok (chars s)
  | JObj fields => Ok (map (fun kv => JStr (fst kv)) fields)
  | _ => Raise TypeError
  end.

Definition as_str (v : json) : result string :=
  match v with
  | JStr s => Ok s
  | _ => Raise TypeError
  end.

(** [sep.join(parts)]: every part has to be a string. *)
Definition jjoin (sep : string) (parts : list json) : result string :=
  rbind (mapM as_str parts) (fun texts => Ok (join sep texts)).

(** [prop.get("type") == "title"]. *)
Definition is_title (v : json) : bool :=
  match v with
  | JStr s => String.eqb s "title"
  | _ => false
  end.

(** The loop of [_extract_page_title] over [properties.values()]. *)
Fixpoint first_title (props : list json) : result string :=
  match props with
  | [] => Ok ""
  | prop :: rest =>
      rbind (jget prop "type" JNull) (fun prop_type =>
      if is_title prop_type then
        rbind (jget prop "title" (JArr [])) (fun title_parts =>
        rbind (jiter title_parts) (fun parts =>
        rbind (mapM (fun part => jget part "plain_text" (JStr "")) parts)
          (fun texts => jjoin "" texts)))
      else first_title rest)
  end.

Definition _extract_page_title (page : json) : result string :=
  rbind (jget page "properties" (JObj [])) (fun properties =>
  rbind (jvalues properties) first_title).

(** The plain texts of one block. *)
Definition block_texts (block : json) : result (list json) :=
  rbind (jget block "type" (JStr "")) (fun block_type =>
  rbind (jget_at block block_type (JObj [])) (fun block_data =>
  rbind (jget block_data "rich_text" (JArr [])) (fun rich_texts =>
  rbind (jiter rich_texts) (fun rts =>
  mapM (fun rt => jget rt "plain_text" (JStr "")) rts)))).

(** The loop of [_get_page_content] over the blocks, on the list
    [text_parts] it appends to. *)
Fixpoint collect_texts (blocks : list json) (text_parts : list json)
  : result (list json) :=
  match blocks with
  | [] => Ok text_parts
  | block :: rest =>
      rbind (block_texts block) (fun texts =>
      collect_texts rest (text_parts ++ texts))
  end.

(** The [try] block of [_get_page_content] once the reply is decoded. *)
Definition page_text (data : json) : result string :=
  rbind (jget data "results" (JArr [])) (fun results =>
  rbind (jiter results) (fun blocks =>
  rbind (collect_texts blocks []) (fun text_parts =>
  jjoin nl text_parts))).

(** The line [_get_page_content] prints when it fails. *)
Inductive page_log := LogPageError (page_id : json).

(** [_get_page_content(page_id, headers)]; [reply] is the decoded reply of
    the request for the blocks of the page, [None] when the request or the
    decoding raised. *)
Definition _get_page_content (page_id : json) (reply : option json)
  : list page_log * string :=
  match reply with
  | None => ([LogPageError page_id], "")
  | Some data =>
      match page_text data with
      | Ok text => ([], text)
      | Raise _ => ([LogPageError page_id], "")
      end
  end.

(** The loop of [search_notion] over the pages found, on the list [results]
    it appends to; [blocks_of] gives the reply for the blocks of a page. *)
Fixpoint collect_pages (blocks_of : json -> option json) (pages : list json)
    (log : list page_log) (results : list (gmap string value))
  : list page_log * result (list (gmap string value)) :=
  match pages with
  | [] => (log, Ok results)
  | page :: rest =>
      match _extract_page_title page with
      | Raise e => (log, Raise e)
      | Ok title =>
          match jsubscript page "id" with
          | Raise e => (log, Raise e)
          | Ok page_id =>
              let '(page_log, content) :=
                _get_page_content page_id (blocks_of page_id) in
              if negb (String.eqb content "") then
                collect_pages blocks_of rest (log ++ page_log)
                  (results ++
                     [ {[ "content" := PStr content;
                          "source" := PStr (if negb (String.eqb title "")
                                            then "Notion: " +:+ title
                                            else "Notion") ]} ])
              else collect_pages blocks_of rest (log ++ page_log) results
          end
      end
  end.

(** What [search_notion] gets once it is enabled and configured, from the
    replies of the API: [search_reply] is the decoded reply of the search
    request, [None] when the request or the decoding raised. *)
Definition notion_reply_of (httpx_available : bool)
    (search_reply : option json) (blocks_of : json -> option json)
  : list page_log * notion_reply :=
  if negb httpx_available then ([], HttpxMissing)
  else
    match search_reply with
    | None => ([], NotionFailed)
    | Some data =>
        match rbind (jget data "results" (JArr [])) jiter with
        | Raise _ => ([], NotionFailed)
        | Ok pages =>
            match collect_pages blocks_of pages [] [] with
            | (log, Ok results) => (log, NotionResults results)
            | (log, Raise _) => (log, NotionFailed)
            end
        end
    end.

(** A block of the given kind with the given plain texts, and the reply
    that lists the given items. *)
Definition text_block (kind : string) (texts : list string) : json :=
  JObj [ ("type", JStr kind);
         (kind, JObj [ ("rich_text",
                        JArr (map (fun t => JObj [("plain_text", JStr t)])
                                  texts)) ]) ].

Definition listing (items : list json) : json := JObj [("results", JArr items)].

(** A page with a title property, and the replies of the examples. *)
Definition page0 (page_id title : string) : json :=
  JObj [ ("id", JStr page_id);
         ("properties",
          JObj [ ("Tags", JObj [("type", JStr "multi_select")]);
                 ("Name", JObj [ ("type", JStr "title");
                                 ("title",
                                  JArr [JObj [("plain_text", JStr title)]]) ]) ]) ].

Definition blocks0 (page_id : json) : option json :=
  match page_id with
  | JStr "p1" => Some (listing [ text_block "heading_1" ["Torts"];
                                 JObj [("type", JStr "divider")];
                                 text_block "paragraph" ["Section"; "420"] ])
  | JStr "p3" => Some (listing [ text_block "paragraph" ["Lease"] ])
  | _ => None
  end.

End NotionPages.

(** ** Further vocabulary *)

(** A chunk the local-corpus search builds for [query]: a non-empty text
    that shares a token with the query, its source, and the overlap ratio as
    its score. *)
Definition answer_chunk (query : string) (c : gmap string value) : Prop :=
  exists text src,
    text ≠ ""
    /\ 0 < size (tokens query ∩ tokens text)
    /\ c = {[ "content" := PStr text;
              "source" := src;
              "score" := PFloat (Z.of_nat (size (tokens query ∩ tokens text))
                                 # Pos.of_nat (size (tokens query))) ]}.

(** The object is a string. *)
Definition is_str (v : value) : Prop := exists s, v = PStr s.

(** Every character of [s] is white space. *)
Fixpoint all_space (s : string) : bool :=
  match s with
  | EmptyString => true
  | String c s' => is_space c && all_space s'
  end.

(** ASCII upper-casing, written without the code's tables: a to z become
    A to Z and every other character stays. *)
Definition upper_ascii_char (c : ascii) : ascii :=
  if ((97 <=? N_of_ascii c) && (N_of_ascii c <=? 122))%N
  then ascii_of_N (N_of_ascii c - 32)
  else c.

Fixpoint upper_ascii (s : string) : string :=
  match s with
  | EmptyString => EmptyString
  | String c s' => String (upper_ascii_char c) (upper_ascii s')
  end.

(** The label that opens the block of the chunk numbered [i]. *)
Definition document_label (i : nat) : string :=
  "[Document " +:+ pretty i +:+ "]".

(** A record whose content has 256 characters: the word alpha, a space and
    250 times the letter x. *)
Definition long_text : string :=
  "alpha " +:+ string_of_list_ascii (replicate 250 "x"%char).

Definition long_doc : json_file := {|
  path := "data/vortex/long.json";
  stem := "long";
  read := Loaded (PDict {[ "content" := PStr long_text ]})
|}.

(** Ten chunks, the content of the chunk numbered [i] being the word
    chunk followed by [i]. *)
Definition ten_chunks : list (gmap string value) :=
  map (fun i : nat => {[ "content" := PStr ("chunk" +:+ pretty i);
                         "source" := PStr "Civil Code" ]})
      (seq 1 10).

(** The progress events of a stream that reaches its last stage, in the
    order they are yielded; [count] is the number of stage-1 responses. *)
Definition progress_events (count : nat) : list (gmap string value) :=
  [ status_event "Retrieving legal documents...";
    status_event "Consulting legal experts...";
    stage1_complete_event count;
    status_event "Evaluating responses...";
    stage2_complete_event;
    status_event "Synthesizing final answer..." ].

(** The citation as the stream sends it. *)
Definition citation_dict (c : SourceCitation) : value :=
  PDict {[ "source" := PStr (source c); "excerpt" := PStr (excerpt c) ]}.

(** Stages that answer as the council of the examples does, and a text
    for exceptions. *)
Definition stage1_0 (query : string) (messages : list (gmap string value))
  : result (list (gmap string value)) :=
  Ok [ {[ "model" := PStr "openai/gpt-5.1"; "response" := PStr "Answer A" ]} ].

Definition stage2_0 (query : string) (stage1 : list (gmap string value))
  : result (list (gmap string value) * gmap string value) :=
  Ok ([], ∅).

Definition stage3_0 (query : string) (stage1 stage2 : list (gmap string value))
  : result (gmap string value) :=
  Ok {[ "model" := PStr CHAIRMAN_MODEL; "response" := PStr "Final answer" ]}.

Definition exn_text0 (e : exn) : string := "error".

(** The stream with the collaborators of the examples. *)
Definition stream0 (cfg : config) (env : environment)
  : Request -> ChatRequest -> M Examples.store0 (list (gmap string value)) :=
  wordpress_chat_stream Examples.repr0 cfg env Examples.store0 (list string)
    Examples.get_conversation0 Examples.create_conversation0
    Examples.add_user_message0 Examples.add_assistant_message0
    stage1_0 stage2_0 stage3_0 Examples.uuid0 exn_text0.

(** * Properties *)

(** ** The stable sort *)

Section SortFacts.
Context {A : Type} (key : A -> Q).

Lemma insert_desc_perm (x : A) (l : list A) :
  insert_desc key x l ≡ₚ x :: l.
Proof.
  induction l as [|y ys IH]; simpl; [done|].
  destruct (Qle_bool (key y) (key x)); [done|].
  rewrite IH. apply Permutation_swap.
Qed.

Lemma sort_desc_perm (l : list A) : sort_desc key l ≡ₚ l.
Proof.
  induction l as [|x l IH]; simpl; [done|].
  rewrite insert_desc_perm. by rewrite IH.
Qed.

Lemma insert_desc_descending (x : A) (l : list A) :
  descending key l -> descending key (insert_desc key x l).
Proof.
  unfold descending. induction 1 as [|y ys Hys IH Hy]; simpl.
  - repeat constructor.
  - destruct (Qle_bool (key y) (key x)) eqn:Hle.
    + apply Qle_bool_iff in Hle.
      constructor; [by constructor|].
      constructor; [done|].
      eapply Forall_impl; [exact Hy|]. simpl. intros z Hz.
      by apply Qle_trans with (key y).
    + constructor; [done|].
      rewrite insert_desc_perm. constructor; [|done].
      destruct (Qlt_le_dec (key x) (key y)) as [Hlt|Hge].
      * by apply Qlt_le_weak.
      * apply Qle_bool_iff in Hge. congruence.
Qed.

Lemma sort_desc_descending (l : list A) : descending key (sort_desc key l).
Proof.
  induction l as [|x l IH]; simpl; [constructor|].
  by apply insert_desc_descending.
Qed.

Lemma insert_desc_with_key (q : Q) (x : A) (l : list A) :
  with_key key q (insert_desc key x l) = with_key key q (x :: l).
Proof.
  unfold with_key. induction l as [|y ys IH]; simpl; [done|].
  destruct (Qle_bool (key y) (key x)) eqn:Hle; [done|].
  rewrite (filter_cons _ y), IH, !filter_cons.
  destruct (decide (Qeq_bool (key y) q)) as [Hy|Hy];
    destruct (decide (Qeq_bool (key x) q)) as [Hx|Hx]; try done.
  apply Is_true_true, Qeq_bool_iff in Hy.
  apply Is_true_true, Qeq_bool_iff in Hx.
  assert (Qle_bool (key y) (key x) = true); [|congruence].
  apply Qle_bool_iff. rewrite Hy, Hx. apply Qle_refl.
Qed.

(** Stability: the elements of one key are in the order they had. *)
Lemma sort_desc_with_key (q : Q) (l : list A) :
  with_key key q (sort_desc key l) = with_key key q l.
Proof.
  induction l as [|x l IH]; simpl; [done|].
  rewrite insert_desc_with_key. unfold with_key in *.
  by rewrite !filter_cons, IH.
Qed.

Lemma filter_sublist_mono (P : A -> Prop) `{!forall x, Decision (P x)}
    (l1 l2 : list A) :
  l1 `sublist_of` l2 -> filter P l1 `sublist_of` filter P l2.
Proof.
  induction 1 as [|x l1 l2 _ IH|x l1 l2 _ IH]; [done| |].
  - rewrite !filter_cons. destruct (decide (P x)); [by constructor|done].
  - rewrite filter_cons. destruct (decide (P x)); [by constructor|done].
Qed.

(** Two elements of equal key are in the sorted list in the order they
    had. *)
Lemma sort_desc_before (x y : A) (l : list A) :
  before x y (sort_desc key l) -> (key x == key y)%Q -> before x y l.
Proof.
  unfold before. intros Hb Heq.
  apply (filter_sublist_mono (fun z => Qeq_bool (key z) (key x))) in Hb.
  fold (with_key key (key x) (sort_desc key l)) in Hb.
  rewrite sort_desc_with_key in Hb.
  rewrite !filter_cons_True in Hb.
  - rewrite filter_nil in Hb. etrans; [exact Hb|]. apply sublist_filter.
  - apply Is_true_true, Qeq_bool_iff. by symmetry.
  - apply Is_true_true, Qeq_bool_iff. reflexivity.
Qed.
End SortFacts.

(** ** The local-corpus search *)

Section LocalCorpus.
Import LocalCorpusSpec.

Lemma truediv_pos (a b : nat) :
  b ≠ 0 -> truediv a b = Ok (Z.of_nat a # Pos.of_nat b).
Proof. by destruct b. Qed.

Lemma overlap_no_text (query : string) (rec : value) :
  record_text rec = "" -> overlap query rec = 0.
Proof.
  unfold overlap. intros ->.
  replace (tokens "") with (∅ : gset string) by done.
  by rewrite (right_absorb_L ∅ (∩)), size_empty.
Qed.

(** On well-formed records the inner loop never raises, and appends the
    chunks of the records that share a token with the query. *)
Lemma scan_chunks_well_formed (query file_stem : string)
    (chunks : list value) (scored_chunks : list scored) :
  size (tokens query) ≠ 0 ->
  forallb well_formed chunks = true ->
  scan_chunks (tokens query) file_stem chunks scored_chunks =
    (scored_chunks ++
       map (result_chunk query)
         (filter (fun sr => 0 < overlap query (snd sr))
                 (map (pair file_stem) chunks)),
     None).
Proof.
  intros Hq. revert scored_chunks.
  induction chunks as [|chunk rest IH]; intros acc Hwf.
  { simpl. by rewrite app_nil_r. }
  change (well_formed chunk && forallb well_formed rest = true) in Hwf.
  apply andb_prop in Hwf as [Hc Hrest].
  assert (Hskip : record_text chunk = "" ->
            acc ++ map (result_chunk query)
              (filter (fun sr => 0 < overlap query (snd sr))
                 (map (pair file_stem) rest)) =
            acc ++ map (result_chunk query)
              (filter (fun sr => 0 < overlap query (snd sr))
                 (map (pair file_stem) (chunk :: rest)))).
  { intros Ht. simpl map at 4. rewrite filter_cons_False; [done|].
    simpl. rewrite overlap_no_text by done. lia. }
  destruct chunk as [| | | | |l|d]; try discriminate Hc.
  cbn [scan_chunks obj_get]. unfold dict_get.
  unfold well_formed in Hc.
  destruct (d !! "content") as [v|] eqn:Hcontent; cbn [default from_option id].
  - destruct v as [|b|z|q|text|l|d'];
      try (rewrite Hc; cbn [negb]; rewrite IH by done; f_equal; apply Hskip;
           unfold record_text; by rewrite Hcontent).
    unfold truthy. destruct (String.eqb text "") eqn:Hempty; cbn [negb].
    + apply String.eqb_eq in Hempty as ->.
      rewrite IH by done. f_equal. apply Hskip.
      unfold record_text; by rewrite Hcontent.
    + assert (Htext : record_text (PDict d) = text).
      { unfold record_text; by rewrite Hcontent. }
      fold (record_text (PDict d)) in *.
      destruct (0 <? size (tokens query ∩ tokens text))%nat eqn:Hov.
      * rewrite truediv_pos by done. rewrite IH by done.
        simpl map at 4. rewrite filter_cons_True.
        2:{ simpl. unfold overlap. rewrite Htext.
            by apply Nat.ltb_lt in Hov. }
        rewrite <- app_assoc. do 2 f_equal.
        rewrite map_cons. f_equal.
        unfold result_chunk, ratio, overlap, record_source.
        cbn [fst snd]. by rewrite Htext.
      * rewrite IH by done. simpl map at 4.
        rewrite filter_cons_False; [done|].
        simpl. unfold overlap. rewrite Htext.
        apply Nat.ltb_ge in Hov. lia.
  - cbn [truthy String.eqb negb]. rewrite IH by done. f_equal. apply Hskip.
    unfold record_text; by rewrite Hcontent.
Qed.
Lemma candidates_cons (query : string) (f : json_file) (rest : list json_file) :
  candidates query (f :: rest) =
    map (result_chunk query)
      (filter (fun sr => 0 < overlap query (snd sr))
         match read f with
         | Loaded data => map (pair (stem f)) (normalize data)
         | Failed _ => []
         end)
    ++ candidates query rest.
Proof.
  unfold candidates, records. cbn [flat_map].
  by rewrite filter_app, map_app.
Qed.

(** On tolerated files the outer loop never raises: it logs one warning
    for each file that cannot be opened or parsed and appends the chunks
    of the other files. *)
Lemma scan_files_tolerated (query : string) (files : list json_file)
    (log : list log_line) (scored_chunks : list scored) :
  size (tokens query) ≠ 0 ->
  forallb tolerated_file files = true ->
  scan_files (tokens query) files log scored_chunks =
    (log ++ warnings files, Ok (scored_chunks ++ candidates query files)).
Proof.
  intros Hq. revert log scored_chunks.
  induction files as [|f rest IH]; intros log acc Hok.
  { cbn. by rewrite !app_nil_r. }
  change (tolerated_file f && forallb tolerated_file rest = true) in Hok.
  apply andb_prop in Hok as [Hf Hrest].
  rewrite candidates_cons. cbn [scan_files warnings flat_map].
  unfold scan_file, tolerated_file in *.
  destruct (read f) as [e|data].
  - rewrite Hf, IH by done. cbn [map filter]. by rewrite <- !app_assoc.
  - rewrite scan_chunks_well_formed by done.
    rewrite IH by done. by rewrite app_nil_l, <- app_assoc.
Qed.

Lemma well_formed_tolerated (files : list json_file) :
  forallb well_formed_file files = true ->
  forallb tolerated_file files = true.
Proof.
  rewrite !forallb_forall. intros H f Hf. specialize (H f Hf).
  unfold well_formed_file, tolerated_file in *.
  by destruct (read f).
Qed.

Lemma well_formed_no_warnings (files : list json_file) :
  forallb well_formed_file files = true -> warnings files = [].
Proof.
  induction files as [|f rest IH]; [done|].
  intros H.
  change (well_formed_file f && forallb well_formed_file rest = true) in H.
  apply andb_prop in H as [Hf Hrest].
  cbn [warnings flat_map]. fold (warnings rest). rewrite IH by done.
  unfold well_formed_file in Hf. by destruct (read f).
Qed.

Lemma no_tokens_no_candidates (query : string) (files : list json_file) :
  size (tokens query) = 0 -> candidates query files = [].
Proof.
  intros Hq. apply size_empty_inv, leibniz_equiv in Hq.
  unfold candidates.
  induction (records files) as [|sr l IH]; [done|].
  rewrite filter_cons_False; [done|].
  unfold overlap. rewrite Hq, (left_absorb_L ∅ (∩)), size_empty. lia.
Qed.

Lemma slice_to_nonneg {A} (n : Z) (l : list A) :
  (0 <= n)%Z -> slice_to n l = take (Z.to_nat n) l.
Proof.
  intros Hn. unfold slice_to.
  by destruct (Z.leb_spec 0 n); [|lia].
Qed.

Lemma slice_to_nil {A} (n : Z) : slice_to n ([] : list A) = [].
Proof. unfold slice_to. destruct (0 <=? n)%Z; by rewrite take_nil. Qed.

(** The search on a directory of tolerated files. *)
Lemma search_tolerated (env : environment) (query : string)
    (max_results : Z) (files : list json_file) :
  json_dir env = Some files ->
  forallb tolerated_file files = true ->
  _search_json_files env query max_results =
    (if (size (tokens query) =? 0)%nat then [] else warnings files,
     Ok (map snd (slice_to max_results
                    (sort_desc fst (candidates query files))))).
Proof.
  intros Hdir Hok. unfold _search_json_files. rewrite Hdir. cbn zeta.
  destruct (size (tokens query) =? 0)%nat eqn:Hq.
  - apply Nat.eqb_eq in Hq.
    rewrite no_tokens_no_candidates by done.
    cbn [sort_desc foldr]. by rewrite slice_to_nil.
  - apply Nat.eqb_neq in Hq.
    rewrite scan_files_tolerated by done.
    unfold lbind, lret. by rewrite !app_nil_l, app_nil_r.
Qed.
End LocalCorpus.

Section DivisionGuard.

Lemma obj_get_raises (v : value) (key : string) (dflt : value) (e : exn) :
  obj_get v key dflt = Raise e -> e = AttributeError.
Proof. destruct v; simpl; congruence. Qed.

(** With a non-empty set of query tokens the inner loop never divides by
    zero. *)
Lemma scan_chunks_divisor (query_tokens : gset string) (file_stem : string)
    (chunks : list value) (scored_chunks : list scored) :
  size query_tokens ≠ 0 ->
  snd (scan_chunks query_tokens file_stem chunks scored_chunks)
    ≠ Some ZeroDivisionError.
Proof.
  intros Hq. revert scored_chunks.
  induction chunks as [|chunk rest IH]; intros acc; cbn [scan_chunks];
    [done|].
  destruct (obj_get chunk "content" (PStr "")) as [content|e] eqn:Hget.
  2:{ apply obj_get_raises in Hget as ->. done. }
  destruct (negb (truthy content)); [apply IH|].
  destruct content; try done.
  destruct (0 <? _)%nat; [|apply IH].
  rewrite truediv_pos by done.
  destruct (obj_get chunk "source" (PStr file_stem)) as [src|e] eqn:Hsrc.
  - apply IH.
  - apply obj_get_raises in Hsrc as ->. done.
Qed.

Lemma scan_files_divisor (query_tokens : gset string)
    (files : list json_file) (log : list log_line)
    (scored_chunks : list scored) :
  size query_tokens ≠ 0 ->
  snd (scan_files query_tokens files log scored_chunks)
    ≠ Raise ZeroDivisionError.
Proof.
  intros Hq. revert log scored_chunks.
  induction files as [|f rest IH]; intros log acc; cbn [scan_files];
    [done|].
  destruct (scan_file query_tokens f acc) as [acc' r] eqn:Hscan.
  destruct r as [e|]; [|apply IH].
  destruct (caught e); [apply IH|].
  cbn [snd]. intros [= ->].
  unfold scan_file in Hscan. destruct (read f) as [?|data]; [done|].
  pose proof (scan_chunks_divisor query_tokens (stem f) (normalize data)
                acc Hq) as Hno.
  rewrite Hscan in Hno. done.
Qed.

Lemma search_divisor (env : environment) (query : string) (max_results : Z) :
  snd (_search_json_files env query max_results) ≠ Raise ZeroDivisionError.
Proof.
  unfold _search_json_files.
  destruct (json_dir env) as [files|]; [|done]. cbn zeta.
  destruct (size (tokens query) =? 0)%nat eqn:Hq; [done|].
  apply Nat.eqb_neq in Hq.
  pose proof (scan_files_divisor (tokens query) files [] [] Hq) as Hno.
  destruct (scan_files (tokens query) files [] []) as [log [sc|e]];
    cbn in *; congruence.
Qed.

Lemma no_words_no_tokens (query : string) :
  findall_word (lower query) = [] -> size (tokens query) = 0.
Proof. unfold tokens. by intros ->. Qed.

End DivisionGuard.

(** ** What the local-corpus search returns *)

Import LocalCorpusSpec Examples.

(** Upper-casing the ASCII letters of a text changes none of its tokens. *)
Lemma lower_upper_ascii_char (c : ascii) :
  lower_char (upper_ascii_char c) = lower_char c.
Proof. by destruct c as [[] [] [] [] [] [] [] []]. Qed.

Lemma lower_upper_ascii (s : string) : lower (upper_ascii s) = lower s.
Proof.
  induction s as [|c s IH]; [done|].
  cbn [upper_ascii lower]. by rewrite lower_upper_ascii_char, IH.
Qed.

Lemma tokens_upper_ascii (s : string) : tokens (upper_ascii s) = tokens s.
Proof. unfold tokens. by rewrite lower_upper_ascii. Qed.

(** C2. On a corpus of well-formed records the search returns, truncated to
    [max_results], the chunks of the records that share a token with the
    query, each scored |query tokens ∩ content tokens| / |query tokens| on
    the lower-cased word sets, sorted by decreasing score, chunks of equal
    score in the order their records were met.  The record "alpha beta" is
    returned for "alpha gamma" with score 1/2, and "zzz" returns nothing.
    The word sets do not see case: the query in upper case gives the same
    log and the same result, a text in upper case has the tokens of the
    text, the tokens of "Hello, World_1 foo-bar HELLO" are hello, world_1,
    foo and bar, "ALPHA Gamma" finds "alpha beta" with score 1/2, and
    "gamma ALPHA" finds "Alpha, GAMMA." with score 2/2 before "gamma" with
    score 1/2. *)
Theorem local_corpus_search (env : environment) (query : string)
    (max_results : Z) (files : list json_file) :
  json_dir env = Some files ->
  forallb well_formed_file files = true ->
  (0 <= max_results)%Z ->
  (exists ranked : list scored,
     _search_json_files env query max_results
       = ([], Ok (take (Z.to_nat max_results) (map snd ranked)))
     /\ ranked ≡ₚ candidates query files
     /\ descending fst ranked
     /\ forall s : Q,
          with_key fst s ranked = with_key fst s (candidates query files))
  /\ _search_json_files (corpus_env [doc1]) "alpha gamma" 10
     = ([], Ok [ {[ "content" := PStr "alpha beta";
                    "source" := PStr "Doc1";
                    "score" := PFloat (1 # 2) ]} ])
  /\ _search_json_files (corpus_env [doc1]) "zzz" 10 = ([], Ok [])
  /\ _search_json_files env (upper_ascii query) max_results
     = _search_json_files env query max_results
  /\ (forall text : string, tokens (upper_ascii text) = tokens text)
  /\ tokens "Hello, World_1 foo-bar HELLO"
     = list_to_set ["hello"; "world_1"; "foo"; "bar"]
  /\ _search_json_files (corpus_env [doc1]) "ALPHA Gamma" 10
     = ([], Ok [ {[ "content" := PStr "alpha beta";
                    "source" := PStr "Doc1";
                    "score" := PFloat (1 # 2) ]} ])
  /\ _search_json_files (corpus_env [mixed; doc1]) "gamma ALPHA" 2
     = ([], Ok [ {[ "content" := PStr "Alpha, GAMMA.";
                    "source" := PStr "Both";
                    "score" := PFloat (2 # 2) ]};
                 {[ "content" := PStr "gamma";
                    "source" := PStr "mixed";
                    "score" := PFloat (1 # 2) ]} ]).
Proof.
  intros Hdir Hwf Hmax.
  split; [|split; [by vm_compute|split; [by vm_compute|]]].
  - exists (sort_desc fst (candidates query files)).
    split; [|split; [|split]].
    + rewrite (search_tolerated env query max_results files Hdir)
        by by apply well_formed_tolerated.
      rewrite well_formed_no_warnings by done.
      rewrite slice_to_nonneg by done.
      rewrite <- fmap_take. by destruct (_ =? _)%nat.
    + apply sort_desc_perm.
    + apply sort_desc_descending.
    + intros s. apply sort_desc_with_key.
  - split; [|split; [|split; [|split]]].
    + unfold _search_json_files. by rewrite tokens_upper_ascii.
    + apply tokens_upper_ascii.
    + by vm_compute.
    + by vm_compute.
    + by vm_compute.
Qed.

Lemma local_corpus_search_witness :
  _search_json_files (corpus_env [mixed; doc1]) "GAMMA ALPHA" 2
    = _search_json_files (corpus_env [mixed; doc1]) "gamma alpha" 2
  /\ exists ranked : list scored,
       _search_json_files (corpus_env [mixed; doc1]) "gamma alpha" 2
         = ([], Ok (take (Z.to_nat 2) (map snd ranked)))
       /\ ranked ≡ₚ candidates "gamma alpha" [mixed; doc1]
       /\ descending fst ranked
       /\ take (Z.to_nat 2) (map snd ranked)
          = [ {[ "content" := PStr "Alpha, GAMMA.";
                 "source" := PStr "Both";
                 "score" := PFloat (2 # 2) ]};
              {[ "content" := PStr "gamma";
                 "source" := PStr "mixed";
                 "score" := PFloat (1 # 2) ]} ].
Proof.
  destruct (local_corpus_search (corpus_env [mixed; doc1]) "gamma alpha" 2
              [mixed; doc1])
    as ((ranked & H1 & H2 & H3 & _) & _ & _ & Hupper & _);
    [reflexivity | by vm_compute | lia |].
  split; [exact Hupper|].
  exists ranked. split; [exact H1|]. split; [exact H2|]. split; [exact H3|].
  assert (Hrun : _search_json_files (corpus_env [mixed; doc1]) "gamma alpha" 2
                 = ([], Ok [ {[ "content" := PStr "Alpha, GAMMA.";
                                "source" := PStr "Both";
                                "score" := PFloat (2 # 2) ]};
                             {[ "content" := PStr "gamma";
                                "source" := PStr "mixed";
                                "score" := PFloat (1 # 2) ]} ]))
    by by vm_compute.
  rewrite H1 in Hrun. by injection Hrun.
Defined.




(** A record that is not an object ends the search with [AttributeError],
    as does a content that is a number; a file that is not UTF-8 ends it
    with [UnicodeDecodeError].  The handler of the loop catches
    [JSONDecodeError] and [OSError] only. *)
Lemma non_object_record_raises :
  snd (_search_json_files (corpus_env [doc1; numbers]) "alpha" 10)
    = Raise AttributeError
  /\ snd (_search_json_files
            (corpus_env [ {| path := "n.json"; stem := "n";
                             read := Loaded (PDict {[ "content" := PInt 5 ]}) |} ])
            "alpha" 10)
     = Raise AttributeError
  /\ snd (_search_json_files
            (corpus_env [ {| path := "latin.json"; stem := "latin";
                             read := Failed UnicodeDecodeError |} ])
            "alpha" 10)
     = Raise (ReadError UnicodeDecodeError).
Proof. repeat split; by vm_compute. Qed.

(** C9. A query without word tokens returns the empty list without
    scanning a file, whatever the directory holds; and no search divides by
    zero: the score is computed only when the query has a token. *)
Theorem empty_query_guard (env : environment) (query : string)
    (max_results : Z) :
  findall_word (lower query) = [] ->
  snd (_search_json_files env query max_results) = Ok []
  /\ (forall files, json_dir env = Some files ->
        _search_json_files env query max_results = ([], Ok []))
  /\ (forall env' query' max_results',
        snd (_search_json_files env' query' max_results')
          ≠ Raise ZeroDivisionError)
  /\ (forall a, truediv a (size (tokens query)) = Raise ZeroDivisionError).
Proof.
  intros Hq. apply no_words_no_tokens in Hq.
  assert (Hdir : forall files, json_dir env = Some files ->
            _search_json_files env query max_results = ([], Ok [])).
  { intros files Hfiles. unfold _search_json_files.
    by rewrite Hfiles, Hq. }
  split; [|split; [done|split]].
  - destruct (json_dir env) as [files|] eqn:Hfiles.
    + by rewrite (Hdir files).
    + unfold _search_json_files. by rewrite Hfiles.
  - apply search_divisor.
  - intros a. by rewrite Hq.
Qed.

Lemma empty_query_guard_witness :
  snd (_search_json_files (corpus_env [numbers; broken]) " ?! -- " 10) = Ok []
  /\ (forall files, json_dir (corpus_env [numbers; broken]) = Some files ->
        _search_json_files (corpus_env [numbers; broken]) " ?! -- " 10
          = ([], Ok []))
  /\ (forall env' query' max_results',
        snd (_search_json_files env' query' max_results')
          ≠ Raise ZeroDivisionError)
  /\ (forall a, truediv a (size (tokens " ?! -- ")) = Raise ZeroDivisionError).
Proof.
  apply (empty_query_guard (corpus_env [numbers; broken]) " ?! -- " 10).
  reflexivity.
Defined.

(** ** The retrieval merge layer and the prompt composer *)

Section Composer.
Variable repr : value -> string.

Lemma number_chunks_blocks (i : nat) (chunks : list (gmap string value))
    (parts : list string) :
  number_chunks repr i chunks parts =
    parts ++ imap (fun j chunk => document_block repr (i + j) chunk) chunks.
Proof.
  revert i parts.
  induction chunks as [|chunk rest IH]; intros i parts;
    cbn [number_chunks].
  { by rewrite app_nil_r. }
  rewrite IH, imap_cons, <- app_assoc. cbn [app].
  do 2 f_equal.
  - unfold document_block. by rewrite Nat.add_0_r.
  - apply imap_ext. intros j chunk' _. cbn. f_equal. lia.
Qed.

Lemma build_system_prompt_blocks (chunks : list (gmap string value)) :
  chunks ≠ [] ->
  build_system_prompt repr chunks =
    THAI_LEGAL_SYSTEM_PROMPT
      (join separator
         (imap (fun i chunk => document_block repr (S i) chunk) chunks)).
Proof.
  destruct chunks as [|chunk rest]; [done|]. intros _.
  unfold build_system_prompt. by rewrite number_chunks_blocks.
Qed.
End Composer.

Lemma retrieve_context_concat (cfg : config) (env : environment)
    (query : string) (vortex_log notion_log : list log_line)
    (primary supplementary : list (gmap string value)) :
  search_vortex cfg env query None = (vortex_log, Ok primary) ->
  search_notion cfg env query Notion.default_max_results
    = (notion_log, Ok supplementary) ->
  retrieve_context cfg env query
    = (vortex_log ++ notion_log, Ok (primary ++ supplementary)).
Proof. unfold retrieve_context. by intros -> ->. Qed.

(** C3. When the primary adapter returns [primary] and the supplementary
    adapter returns [supplementary], [retrieve_context] returns [primary]
    followed by [supplementary]: every chunk keeps its position within its
    own list, none is dropped, merged or moved across the two sources. *)
Theorem merge_keeps_adapter_order (cfg : config) (env : environment)
    (query : string) (vortex_log notion_log : list log_line)
    (primary supplementary : list (gmap string value)) :
  search_vortex cfg env query None = (vortex_log, Ok primary) ->
  search_notion cfg env query Notion.default_max_results
    = (notion_log, Ok supplementary) ->
  exists merged,
    snd (retrieve_context cfg env query) = Ok merged
    /\ merged = primary ++ supplementary
    /\ (forall i, i < length primary -> merged !! i = primary !! i)
    /\ (forall j, merged !! (length primary + j) = supplementary !! j).
Proof.
  intros Hv Hn. exists (primary ++ supplementary).
  rewrite (retrieve_context_concat _ _ _ _ _ _ _ Hv Hn).
  repeat split.
  - intros i Hi. by apply lookup_app_l.
  - intros j. rewrite lookup_app_r by lia. f_equal. lia.
Qed.

(** The supplementary chunk with score 9/10 stays behind the primary chunk
    with score 1/10, and the copy of the primary chunk is kept. *)
Lemma merge_keeps_adapter_order_witness :
  exists merged,
    snd (retrieve_context merge_config merge_env "Section 420") = Ok merged
    /\ merged = [low_chunk] ++ [high_chunk; low_chunk]
    /\ (forall i, i < length [low_chunk] -> merged !! i = [low_chunk] !! i)
    /\ (forall j, merged !! (length [low_chunk] + j)
                  = [high_chunk; low_chunk] !! j).
Proof.
  apply (merge_keeps_adapter_order merge_config merge_env "Section 420"
           [] [] [low_chunk] [high_chunk; low_chunk]); reflexivity.
Defined.

(** ** The API-key gate and the chat handler *)

Lemma validate_api_key_cases (cfg : config) (Store : Type)
    (request : Request) (w : world Store) :
  (validate_api_key cfg Store request w = (Ok tt, w)
   /\ ~ key_rejected cfg request)
  \/ (validate_api_key cfg Store request w
        = (Raise (HTTPException 401 "Invalid or missing API key"), w)
      /\ key_rejected cfg request).
Proof.
  unfold validate_api_key, key_rejected.
  destruct (String.eqb_spec (WP_API_KEY cfg) "") as [Hnone|Hset].
  { left. split; [done|]. by intros [? _]. }
  destruct (headers_get request "X-API-Key") as [key|].
  2:{ right. split; [done|]. split; [done|by left]. }
  destruct (String.eqb_spec key "") as [Hempty|Hkey]; cbn [orb].
  { right. split; [done|]. split; [done|]. right. exists key.
    split; [done|]. congruence. }
  destruct (String.eqb_spec key (WP_API_KEY cfg)) as [Heq|Hne]; cbn [negb].
  - left. split; [done|]. intros [_ [?|(key' & [= <-] & Hne)]]; done.
  - right. split; [done|]. split; [done|]. right. by exists key.
Qed.

(** C10. [validate_api_key] raises 401 exactly when a key is configured
    and the header [X-API-Key] is missing or differs from it; without a
    configured key every request passes; and the validation leaves the state
    as it was. *)
Theorem validate_api_key_spec (cfg : config) (Store : Type)
    (request : Request) (w : world Store) :
  ((exists detail,
      fst (validate_api_key cfg Store request w)
        = Raise (HTTPException 401 detail))
   <-> WP_API_KEY cfg ≠ "" /\
       (headers_get request "X-API-Key" = None \/
        exists key, headers_get request "X-API-Key" = Some key
                    /\ key ≠ WP_API_KEY cfg))
  /\ (WP_API_KEY cfg = "" ->
      validate_api_key cfg Store request w = (Ok tt, w))
  /\ (fst (validate_api_key cfg Store request w) = Ok tt
      \/ fst (validate_api_key cfg Store request w)
           = Raise (HTTPException 401 "Invalid or missing API key"))
  /\ snd (validate_api_key cfg Store request w) = w.
Proof.
  fold (key_rejected cfg request).
  destruct (validate_api_key_cases cfg Store request w)
    as [[-> Hok]|[-> Hbad]]; cbn [fst snd].
  - split; [split; [by intros [? ?]|done]|].
    split; [done|]. split; [by left|done].
  - split; [split; [done|by eexists]|].
    split; [by intros ?; destruct Hbad|]. split; [by right|done].
Qed.

Lemma ChatRequest_validate_cases (body : gmap string value) :
  ChatRequest_validate body = Raise ValidationError
  \/ exists chat_request,
       ChatRequest_validate body = Ok chat_request
       /\ body !! "message" = Some (PStr (message chat_request))
       /\ 1 <= String.length (message chat_request) <= 5000.
Proof.
  unfold ChatRequest_validate.
  destruct (body !! "message") as [v|]; [|by left].
  destruct v as [| | | |m| |]; try by left. cbn [rbind str_field].
  destruct (Nat.ltb_spec (String.length m) 1); [by left|].
  destruct (Nat.ltb_spec 5000 (String.length m)); [by left|]. cbn [orb].
  destruct (body !! "session_id") as [v'|].
  - destruct v' as [| | | |s| |]; try by left. cbn [rbind str_field].
    destruct (200 <? String.length s)%nat; [by left|].
    right. eexists. split; [done|]. cbn. split; [done|lia].
  - cbn [rbind]. right. eexists. split; [done|]. cbn. split; [done|lia].
Qed.

Lemma mapM_ok {A B} (f : A -> result B) (l : list A) (l' : list B) :
  mapM f l = Ok l' ->
  length l' = length l
  /\ forall i x, l !! i = Some x -> exists y, l' !! i = Some y /\ f x = Ok y.
Proof.
  revert l'. induction l as [|x l IH]; intros l'; cbn [mapM].
  { intros [= <-]. split; [done|]. intros i x. by rewrite lookup_nil. }
  destruct (f x) as [y|e] eqn:Hfx; [|done]. cbn [rbind].
  destruct (mapM f l) as [ys|e]; [|done]. cbn [rbind]. intros [= <-].
  destruct (IH ys eq_refl) as [Hlen Hall]. split; [cbn; lia|].
  intros [|i] x'; cbn.
  - intros [= <-]. by exists y.
  - apply Hall.
Qed.

Lemma str_take_all (n : nat) (s : string) :
  String.length s <= n -> str_take n s = s.
Proof.
  revert n. induction s as [|c s IH]; intros [|n]; cbn; try done; try lia.
  intros Hlen. f_equal. apply IH. lia.
Qed.

Lemma length_str_take (n : nat) (s : string) :
  String.length (str_take n s) = Nat.min n (String.length s).
Proof.
  revert n. induction s as [|c s IH]; intros [|n]; cbn; try done.
  by rewrite IH.
Qed.

(** A slice from the start is a prefix of the string. *)
Lemma str_take_prefix (n : nat) (s : string) :
  exists rest, s = str_take n s +:+ rest.
Proof.
  revert n. induction s as [|c s IH]; intros [|n].
  - by exists "".
  - by exists "".
  - by exists (String c s).
  - destruct (IH n) as [rest Hrest]. exists rest.
    cbn [str_take]. change (String c (str_take n s) +:+ rest)
      with (String c (str_take n s +:+ rest)). by rewrite <- Hrest.
Qed.

Lemma citation_of_ok (chunk : gmap string value) (citation : SourceCitation) :
  citation_of chunk = Ok citation ->
  exists text,
    dict_get chunk "source" (PStr "Unknown") = PStr (source citation)
    /\ dict_get chunk "content" (PStr "") = PStr text
    /\ excerpt citation = str_take 200 text.
Proof.
  unfold citation_of, SourceCitation_new.
  destruct (dict_get chunk "content" (PStr "")) as [| | | |text|l|d];
    try done; cbn [obj_slice_to rbind].
  - destruct (dict_get chunk "source" (PStr "Unknown")) as [| | | |src| |];
      try done; cbn [str_field rbind].
    intros [= <-]. by exists text.
  - by destruct (str_field (dict_get chunk "source" (PStr "Unknown"))).
Qed.

Section Handler.
Context (repr : value -> string) (cfg : config) (env : environment).
Context (Store Conversation : Type).
Context (get_conversation : string -> Store -> option Conversation).
Context (create_conversation : string -> Store -> Store).
Context (add_user_message : string -> string -> Store -> Store).
Context (add_assistant_message :
  string -> list (gmap string value) -> list (gmap string value) ->
  gmap string value -> Store -> Store).
Context (run_full_council :
  string -> list (gmap string value) ->
  result (list (gmap string value) * list (gmap string value)
          * gmap string value * gmap string value)).
Context (uuid4 : nat -> string).

Local Abbreviation chat :=
  (wordpress_chat repr cfg env Store Conversation get_conversation
     create_conversation add_user_message add_assistant_message
     run_full_council uuid4).

Local Abbreviation route :=
  (api_chat repr cfg env Store Conversation get_conversation
     create_conversation add_user_message add_assistant_message
     run_full_council uuid4).

Lemma bind_ok {A B} (m : M Store A) (k : A -> M Store B) (w w' : world Store)
    (b : B) :
  bind Store m k w = (Ok b, w') ->
  exists a w1, m w = (Ok a, w1) /\ k a w1 = (Ok b, w').
Proof.
  unfold bind. destruct (m w) as [[a|e] w1]; [|done]. intros H.
  by exists a, w1.
Qed.

(** A message that is blank after stripping stops the handler at its
    second step, in the state it started in. *)
Lemma wordpress_chat_blank (request : Request) (body : ChatRequest)
    (w : world Store) :
  strip (message body) = "" ->
  (chat request body w
     = (Raise (HTTPException 401 "Invalid or missing API key"), w)
   /\ key_rejected cfg request)
  \/ (chat request body w
        = (Raise (HTTPException 400 "Message cannot be empty"), w)
      /\ ~ key_rejected cfg request).
Proof.
  intros Hblank. unfold wordpress_chat, bind.
  destruct (validate_api_key_cases cfg Store request w)
    as [[-> Hok]|[-> Hbad]].
  - right. by rewrite Hblank.
  - by left.
Qed.

(** C7, as amended.  A request whose message is empty or blank after
    stripping is rejected with an explicit error before any retrieval,
    council call or change of the conversation state (the state is the one
    the request found): with 422 when the body fails the validation of
    [ChatRequest], which an empty message does; otherwise with 401 when the
    API key is rejected; otherwise with 400. *)
Theorem blank_message_rejected (request : Request)
    (body : gmap string value) (m : string) (w : world Store) :
  body !! "message" = Some (PStr m) ->
  strip m = "" ->
  exists e,
    route request body w = (Raise e, w)
    /\ ((http_status e = 422
         /\ ChatRequest_validate body = Raise ValidationError)
        \/ (http_status e = 401 /\ key_rejected cfg request
            /\ exists chat_request, ChatRequest_validate body = Ok chat_request)
        \/ (e = HTTPException 400 "Message cannot be empty"
            /\ ~ key_rejected cfg request
            /\ exists chat_request, ChatRequest_validate body = Ok chat_request))
    /\ (m = "" -> http_status e = 422).
Proof.
  intros Hm Hblank. unfold api_chat.
  destruct (ChatRequest_validate_cases body)
    as [Hbad|(chat_request & Hgood & Hmsg & Hlen)].
  - rewrite Hbad. exists RequestValidationError.
    split; [done|]. split; [by left|done].
  - rewrite Hgood. rewrite Hm in Hmsg. injection Hmsg as ->.
    assert (Hne : message chat_request ≠ "").
    { intros Heq. rewrite Heq in Hlen. cbn in Hlen. lia. }
    destruct (wordpress_chat_blank request chat_request w Hblank)
      as [[-> Hkey]|[-> Hkey]].
    + exists (HTTPException 401 "Invalid or missing API key").
      split; [done|]. split; [|done]. right; left. eauto.
    + exists (HTTPException 400 "Message cannot be empty").
      split; [done|]. split; [|done]. right; right. eauto.
Qed.

(** C8. When the handler answers, its citation list has one entry for each
    chunk of the merged context, in the order of the chunks; the source of
    the i-th citation is the source label of the i-th chunk ("Unknown" when
    the chunk has none) and its excerpt is the first 200 characters of the
    content of that chunk, which is the whole content when that has at most
    200 characters: the content is the excerpt followed by a rest, and the
    excerpt has 200 characters, or as many as the content when that has
    fewer. *)
Theorem citations_follow_chunks (request : Request) (body : ChatRequest)
    (w w' : world Store) (response : ChatResponse) :
  chat request body w = (Ok response, w') ->
  exists chunks,
    snd (retrieve_context cfg env (strip (message body))) = Ok chunks
    /\ length (sources response) = length chunks
    /\ forall i chunk,
         chunks !! i = Some chunk ->
         exists citation text,
           sources response !! i = Some citation
           /\ PStr (source citation)
              = default (PStr "Unknown") (chunk !! "source")
           /\ PStr text = default (PStr "") (chunk !! "content")
           /\ excerpt citation = str_take 200 text
           /\ (String.length text <= 200 -> excerpt citation = text)
           /\ (exists rest, text = excerpt citation +:+ rest)
           /\ String.length (excerpt citation)
              = Nat.min 200 (String.length text).
Proof.
  intros Hrun. unfold wordpress_chat in Hrun.
  apply bind_ok in Hrun as ([] & w1 & _ & Hrun).
  destruct (String.eqb (strip (message body)) ""); [done|].
  apply bind_ok in Hrun as (sid & w2 & _ & Hrun).
  apply bind_ok in Hrun as ([] & w3 & _ & Hrun).
  apply bind_ok in Hrun as (conversation & w4 & _ & Hrun).
  apply bind_ok in Hrun as ([] & w5 & _ & Hrun).
  apply bind_ok in Hrun as ([] & w6 & _ & Hrun).
  apply bind_ok in Hrun as ([] & w7 & _ & Hrun).
  apply bind_ok in Hrun as ([] & w8 & _ & Hrun).
  apply bind_ok in Hrun as ([messages chunks] & w9 & Hretrieve & Hrun).
  apply bind_ok in Hrun as ([] & w10 & _ & Hrun).
  apply bind_ok in Hrun as ([[[stage1 stage2] stage3] metadata] & w11 & _ & Hrun).
  apply bind_ok in Hrun as (srcs & w12 & Hsources & Hrun).
  apply bind_ok in Hrun as ([] & w13 & _ & Hrun).
  apply bind_ok in Hrun as ([] & w14 & _ & Hrun).
  apply bind_ok in Hrun as (models_used & w15 & _ & Hrun).
  exists chunks.
  (* the chunks are the ones [retrieve_context] returned *)
  assert (Hchunks : snd (retrieve_context cfg env (strip (message body)))
                    = Ok chunks).
  { unfold run_logged, retrieve_and_build_messages, lbind, lret in Hretrieve.
    destruct (retrieve_context cfg env (strip (message body)))
      as [log [context_chunks|e]]; cbn in Hretrieve; [|done].
    by injection Hretrieve as _ <- _. }
  (* the citations are the ones built from them *)
  assert (Hsrcs : sources response = srcs).
  { unfold lift, ChatResponse_new in Hrun.
    destruct (str_field _) as [a|e]; cbn [rbind] in Hrun; [|done].
    by injection Hrun as <- _. }
  unfold lift, build_sources in Hsources. injection Hsources as Hsources _.
  apply mapM_ok in Hsources as [Hlen Hall].
  rewrite Hsrcs. split; [done|]. split; [done|].
  intros i chunk Hi.
  destruct (Hall i chunk Hi) as (citation & Hcit & Hof).
  apply citation_of_ok in Hof as (text & Hsrc & Htext & Hexc).
  exists citation, text. unfold dict_get in *.
  split; [done|]. split; [done|]. split; [done|]. split; [done|].
  split; [|split].
  - intros Hshort. rewrite Hexc. by apply str_take_all.
  - rewrite Hexc. apply str_take_prefix.
  - rewrite Hexc. apply length_str_take.
Qed.
End Handler.

Lemma blank_message_rejected_witness :
  exists e,
    api_chat0 default_config (corpus_env [doc1]) anonymous_request blank_body
      world0
      = (Raise e, world0)
    /\ ((http_status e = 422
         /\ ChatRequest_validate blank_body = Raise ValidationError)
        \/ (http_status e = 401
            /\ key_rejected default_config anonymous_request
            /\ exists chat_request,
                 ChatRequest_validate blank_body = Ok chat_request)
        \/ (e = HTTPException 400 "Message cannot be empty"
            /\ ~ key_rejected default_config anonymous_request
            /\ exists chat_request,
                 ChatRequest_validate blank_body = Ok chat_request))
    /\ ("   " = "" -> http_status e = 422).
Proof.
  apply (blank_message_rejected repr0 default_config (corpus_env [doc1])
           store0 (list string) get_conversation0 create_conversation0
           add_user_message0 add_assistant_message0 run_full_council0 uuid0
           anonymous_request blank_body "   " world0);
    reflexivity.
Defined.

(** C7, as stated, fails: with an API key configured, a blank message sent
    without the key is answered 401, not 400; and an empty message is
    answered 422 by the validation of the body. *)
Lemma blank_message_not_always_400 :
  api_chat0 keyed_config (corpus_env [doc1]) anonymous_request blank_body
    world0
    = (Raise (HTTPException 401 "Invalid or missing API key"), world0)
  /\ api_chat0 default_config (corpus_env [doc1]) anonymous_request
       {[ "message" := PStr "" ]} world0
     = (Raise RequestValidationError, world0).
Proof. split; by vm_compute. Qed.

Lemma citations_follow_chunks_witness :
  String.length long_text = 256
  /\ exists citation,
       [ {| source := "long";
            excerpt := "alpha " +:+ string_of_list_ascii (replicate 194 "x"%char) |};
         {| source := "Doc1"; excerpt := "alpha beta" |} ] !! 0 = Some citation
       /\ source citation = "long"
       /\ String.length (excerpt citation) = 200
       /\ exists rest, long_text = excerpt citation +:+ rest.
Proof.
  split; [reflexivity|].
  destruct (citations_follow_chunks repr0 json_config
              (corpus_env [long_doc; doc1]) store0 (list string)
              get_conversation0 create_conversation0 add_user_message0
              add_assistant_message0 run_full_council0 uuid0
              anonymous_request alpha_request world0
              (snd (chat0 json_config (corpus_env [long_doc; doc1])
                      anonymous_request alpha_request world0))
              {| answer := "Final answer";
                 sources :=
                   [ {| source := "long";
                        excerpt := "alpha " +:+ string_of_list_ascii
                                                  (replicate 194 "x"%char) |};
                     {| source := "Doc1"; excerpt := "alpha beta" |} ];
                 response_session_id := "session-0";
                 council_metadata :=
                   {[ "models_used" :=
                        PList [PStr "openai/gpt-5.1";
                               PStr "google/gemini-3-pro-preview"];
                      "chairman" := PStr CHAIRMAN_MODEL;
                      "aggregate_rankings" := PList [] ]} |})
    as (chunks & Hchunks & Hlen & Hall).
  - by vm_compute.
  - assert (Hrun : snd (retrieve_context json_config
                          (corpus_env [long_doc; doc1])
                          (strip (message alpha_request)))
                   = Ok [ {[ "content" := PStr long_text;
                             "source" := PStr "long";
                             "score" := PFloat (1 # 2) ]};
                          {[ "content" := PStr "alpha beta";
                             "source" := PStr "Doc1";
                             "score" := PFloat (1 # 2) ]} ])
      by by vm_compute.
    rewrite Hchunks in Hrun. injection Hrun as ->.
    destruct (Hall 0 _ eq_refl)
      as (citation & text & Hcit & Hsrc & Htext & _ & _ & Hrest & Hlength).
    vm_compute in Hsrc. injection Hsrc as Hsrc.
    assert (Hlong : text = long_text).
    { vm_compute in Htext. injection Htext as ->. reflexivity. }
    rewrite Hlong in Hrest, Hlength.
    exists citation. split; [exact Hcit|]. split; [|split].
    + cbn [sources lookup list_lookup] in Hcit. injection Hcit as <-.
      reflexivity.
    + rewrite Hlength. reflexivity.
    + exact Hrest.
Defined.

(** ** Rank aggregation *)

Section Aggregation.
Import Council.
Context (label_to_model : gmap string string).

Lemma award_points (n k : nat) (labels : list string)
    (totals : gmap string nat) (m : string) :
  default 0 (award label_to_model n k labels totals !! m) =
    default 0 (totals !! m) +
    sum_list (imap (fun i label =>
                      if bool_decide (label_to_model !! label = Some m)
                      then n - (k + i) + 1 else 0) labels).
Proof.
  revert k totals.
  induction labels as [|label rest IH]; intros k totals; cbn [award].
  { cbn. lia. }
  rewrite IH, imap_cons. cbn [sum_list_with id].
  rewrite Nat.add_0_r, Nat.add_assoc. f_equal.
  - destruct (label_to_model !! label) as [m'|] eqn:Hlabel.
    + destruct (decide (m' = m)) as [->|Hne].
      * rewrite lookup_insert_eq, bool_decide_eq_true_2 by done. done.
      * rewrite lookup_insert_ne by done.
        rewrite bool_decide_eq_false_2 by congruence. cbn. lia.
    + rewrite bool_decide_eq_false_2 by done. lia.
  - f_equal. apply imap_ext. intros i label' _. unfold compose.
    by replace (k + S i) with (S k + i) by lia.
Qed.

Lemma tally_points_from (stage2 : list Stage2Ranking)
    (totals : gmap string nat) (m : string) :
  default 0
    (foldl (fun totals r =>
              award label_to_model (length (ranking r)) 1 (ranking r) totals)
           totals stage2 !! m)
  = default 0 (totals !! m) + borda_points label_to_model stage2 m.
Proof.
  revert totals. unfold borda_points.
  induction stage2 as [|r rest IH]; intros totals; cbn [foldl sum_list_with].
  { lia. }
  rewrite IH, award_points. unfold ranking_points.
  change (1 + ?i) with (S i). symmetry. apply Nat.add_assoc.
Qed.

(** The total of a model is the sum of its points over all rankings. *)
Lemma tally_points (stage2 : list Stage2Ranking) (m : string) :
  default 0 (tally label_to_model stage2 !! m)
  = borda_points label_to_model stage2 m.
Proof. unfold tally. by rewrite tally_points_from, lookup_empty. Qed.

Lemma borda_points_perm (stage2 stage2' : list Stage2Ranking) (m : string) :
  stage2' ≡ₚ stage2 ->
  borda_points label_to_model stage2' m = borda_points label_to_model stage2 m.
Proof. unfold borda_points. by intros ->. Qed.

(** The entries before sorting: one for each worker, in roster order. *)
Lemma aggregate_unfold (roster : list string) (stage2 : list Stage2Ranking) :
  aggregate roster stage2 label_to_model =
    sort_desc score
      ((fun m => {| model := m;
                    score := inject_Z (Z.of_nat
                               (borda_points label_to_model stage2 m)) |})
         <$> workers roster label_to_model).
Proof.
  unfold aggregate. f_equal. apply map_ext.
  intros m. by rewrite tally_points.
Qed.

(** C1. The aggregation holds exactly one entry for each worker model
    behind a label; the score of a model is the sum, over all rankings, of
    N - k + 1 for each 1-indexed position k at which a ranking of N labels
    places it; the entries are sorted by decreasing score; entries of equal
    score are in roster order; and the result is the same for the rankings
    in any order of arrival. *)
Theorem aggregate_spec (roster : list string) (stage2 : list Stage2Ranking) :
  NoDup roster ->
  (forall m,
     m ∈ map model (aggregate roster stage2 label_to_model)
     <-> m ∈ roster /\ exists label, label_to_model !! label = Some m)
  /\ NoDup (map model (aggregate roster stage2 label_to_model))
  /\ (forall entry,
        entry ∈ aggregate roster stage2 label_to_model ->
        score entry
        = inject_Z (Z.of_nat
            (sum_list_with
               (fun r =>
                  sum_list
                    (imap (fun i label =>
                             if bool_decide
                                  (label_to_model !! label = Some (model entry))
                             then length (ranking r) - S i + 1 else 0)
                          (ranking r)))
               stage2)))
  /\ descending score (aggregate roster stage2 label_to_model)
  /\ (forall a b,
        before a b (aggregate roster stage2 label_to_model) ->
        (score a == score b)%Q ->
        before (model a) (model b) roster)
  /\ (forall stage2',
        stage2' ≡ₚ stage2 ->
        aggregate roster stage2' label_to_model
        = aggregate roster stage2 label_to_model).
Proof.
  intros Hroster.
  set (entry_of := fun m =>
         {| model := m;
            score := inject_Z (Z.of_nat
                       (borda_points label_to_model stage2 m)) |}).
  assert (Hmodels : map model (aggregate roster stage2 label_to_model)
                    ≡ₚ workers roster label_to_model).
  { rewrite aggregate_unfold.
    change (map model ?l) with (model <$> l).
    rewrite sort_desc_perm, <- list_fmap_compose.
    by rewrite list_fmap_id. }
  split; [|split; [|split; [|split; [|split]]]].
  - intros m. rewrite Hmodels. unfold workers.
    rewrite list_elem_of_filter, elem_of_map_img. tauto.
  - rewrite Hmodels. unfold workers. by apply NoDup_filter.
  - intros entry. rewrite aggregate_unfold, sort_desc_perm.
    intros (m & -> & _)%list_elem_of_fmap. done.
  - rewrite aggregate_unfold. apply sort_desc_descending.
  - intros a b Hab Heq. rewrite aggregate_unfold in Hab.
    apply sort_desc_before in Hab; [|done]. unfold before in *.
    apply (fmap_sublist model) in Hab.
    rewrite <- list_fmap_compose, list_fmap_id in Hab.
    etrans; [exact Hab|]. apply sublist_filter.
  - intros stage2' Hperm. rewrite !aggregate_unfold. f_equal.
    apply list_fmap_ext. intros _ m _.
    by rewrite (borda_points_perm stage2 stage2').
Qed.
End Aggregation.

(** The two-judge scenario: both models total 3 points, and the first model
    of the roster comes first. *)
Lemma aggregate_spec_witness :
  Council.aggregate COUNCIL_MODELS Examples.two_rankings Examples.two_labels
    = [ {| Council.model := "openai/gpt-5.1"; Council.score := 3 |};
        {| Council.model := "google/gemini-3-pro-preview";
           Council.score := 3 |} ]
  /\ NoDup (map Council.model
              (Council.aggregate COUNCIL_MODELS Examples.two_rankings
                 Examples.two_labels)).
Proof.
  split; [by vm_compute|].
  apply (aggregate_spec Examples.two_labels COUNCIL_MODELS
           Examples.two_rankings).
  apply (bool_decide_unpack _). by vm_compute.
Defined.

(** * Further properties of the code *)

(** ** Strings *)

Lemma append_cons (x : ascii) (a b : string) :
  String x a +:+ b = String x (a +:+ b).
Proof. reflexivity. Qed.

Lemma append_nil_l (b : string) : "" +:+ b = b.
Proof. reflexivity. Qed.

Lemma append_assoc (a b c : string) : (a +:+ b) +:+ c = a +:+ (b +:+ c).
Proof.
  induction a as [|x a IH]; [done|]. rewrite !append_cons. by rewrite IH.
Qed.

Lemma append_nil_r (a : string) : a +:+ "" = a.
Proof.
  induction a as [|x a IH]; [done|]. rewrite append_cons. by rewrite IH.
Qed.

Lemma prefix_append (n t : string) : String.prefix n (n +:+ t) = true.
Proof.
  induction n as [|x n IH]; [by destruct t|].
  rewrite append_cons. cbn [String.prefix].
  by destruct (ascii_dec x x).
Qed.

Lemma occurs_in_here (n t : string) :
  String.prefix n t = true -> occurs_in n t = true.
Proof. intros H. destruct t; cbn [occurs_in]; by rewrite H. Qed.

Lemma occurs_in_skip (a n t : string) :
  occurs_in n t = true -> occurs_in n (a +:+ t) = true.
Proof.
  intros H. induction a as [|x a IH]; [done|].
  rewrite append_cons. cbn [occurs_in]. rewrite IH. apply orb_true_r.
Qed.

(** A text that holds [n] somewhere inside is recognised by [occurs_in]. *)
Lemma occurs_in_middle (a n b : string) : occurs_in n (a +:+ n +:+ b) = true.
Proof. apply occurs_in_skip, occurs_in_here, prefix_append. Qed.

Lemma occurs_in_infix (a n b t : string) :
  t = a +:+ n +:+ b -> occurs_in n t = true.
Proof. intros ->. apply occurs_in_middle. Qed.

Lemma lower_char_idemp (c : ascii) : lower_char (lower_char c) = lower_char c.
Proof. by destruct c as [[] [] [] [] [] [] [] []]. Qed.

Lemma lower_idemp (s : string) : lower (lower s) = lower s.
Proof.
  induction s as [|c s IH]; cbn [lower]; [done|].
  by rewrite lower_char_idemp, IH.
Qed.

Lemma lstrip_all_space (s : string) : lstrip s = "" <-> all_space s = true.
Proof.
  induction s as [|c s IH]; cbn [lstrip all_space]; [done|].
  destruct (is_space c); cbn [andb]; [done|]. split; done.
Qed.

Lemma rstrip_all_space (s : string) : rstrip s = "" <-> all_space s = true.
Proof.
  induction s as [|c s IH]; cbn [rstrip all_space]; [done|].
  destruct (rstrip s) as [|c' r] eqn:Hr.
  - destruct (is_space c); cbn [andb]; [|split; done].
    split; [intros _; by apply IH|done].
  - split; [done|]. intros [_ Hs]%andb_prop. by apply IH in Hs.
Qed.

Lemma lstrip_suffix (s : string) :
  exists a, s = a +:+ lstrip s /\ all_space a = true.
Proof.
  induction s as [|c s (a & Ha & Hsp)]; [by exists ""|].
  cbn [lstrip]. destruct (is_space c) eqn:Hc.
  - exists (String c a). rewrite append_cons. cbn [all_space].
    rewrite Hc, Hsp. by rewrite <- Ha.
  - by exists "".
Qed.

Lemma all_space_append (a b : string) :
  all_space (a +:+ b) = all_space a && all_space b.
Proof.
  induction a as [|c a IH]; [done|].
  rewrite append_cons. cbn [all_space]. by rewrite IH, andb_assoc.
Qed.

(** [s.strip()] is empty exactly when [s] holds white space only. *)
Lemma strip_empty_iff (s : string) : strip s = "" <-> all_space s = true.
Proof.
  unfold strip. rewrite rstrip_all_space.
  destruct (lstrip_suffix s) as (a & Ha & Hsp).
  rewrite Ha at 2. rewrite all_space_append, Hsp. done.
Qed.

(** ** The adapters *)

Lemma ratio_bounds (a b : nat) :
  0 < a -> a <= b ->
  (0 < Z.of_nat a # Pos.of_nat b)%Q /\ (Z.of_nat a # Pos.of_nat b <= 1)%Q.
Proof.
  intros Ha Hab. unfold Qlt, Qle. cbn [Qnum Qden].
  assert (Z.pos (Pos.of_nat b) = Z.of_nat b) as ->.
  { rewrite <- positive_nat_Z, Nat2Pos.id by lia. done. }
  lia.
Qed.

Section SearchResults.
Context (query : string).

Lemma scan_chunks_answers (file_stem : string) (chunks : list value)
    (scored_chunks : list scored) :
  size (tokens query) ≠ 0 ->
  Forall (fun sc => answer_chunk query (snd sc)) scored_chunks ->
  Forall (fun sc => answer_chunk query (snd sc))
         (fst (scan_chunks (tokens query) file_stem chunks scored_chunks)).
Proof.
  intros Hq. revert scored_chunks.
  induction chunks as [|chunk rest IH]; intros acc Hacc; cbn [scan_chunks];
    [done|].
  destruct (obj_get chunk "content" (PStr "")) as [content|e]; [|done].
  destruct (negb (truthy content)) eqn:Htruthy; [by apply IH|].
  destruct content as [| | | |text| |]; try done.
  destruct (0 <? _)%nat eqn:Hov; [|by apply IH].
  rewrite truediv_pos by done.
  destruct (obj_get chunk "source" (PStr file_stem)) as [src|e]; [|done].
  apply IH, Forall_app. split; [done|].
  apply Forall_singleton. exists text, src. cbn [snd].
  split; [|split; [by apply Nat.ltb_lt|done]].
  intros ->. done.
Qed.

Lemma scan_files_answers (files : list json_file) (log : list log_line)
    (scored_chunks ranked : list scored) :
  size (tokens query) ≠ 0 ->
  Forall (fun sc => answer_chunk query (snd sc)) scored_chunks ->
  snd (scan_files (tokens query) files log scored_chunks) = Ok ranked ->
  Forall (fun sc => answer_chunk query (snd sc)) ranked.
Proof.
  intros Hq. revert log scored_chunks.
  induction files as [|f rest IH]; intros log acc Hacc; cbn [scan_files].
  { by intros [= <-]. }
  assert (Hf : Forall (fun sc => answer_chunk query (snd sc))
                      (fst (scan_file (tokens query) f acc))).
  { unfold scan_file. destruct (read f); [done|].
    by apply scan_chunks_answers. }
  destruct (scan_file (tokens query) f acc) as [acc' [e|]].
  - destruct (caught e); [by apply IH|done].
  - by apply IH.
Qed.
End SearchResults.

(** Whatever the directory holds, each chunk a search returns has exactly
    the keys content, source and score; the content is a non-empty string
    that shares a token with the query, and the score is the overlap ratio,
    above 0 and at most 1. *)
Theorem search_results_shape (env : environment) (query : string)
    (max_results : Z) (results : list (gmap string value)) :
  snd (_search_json_files env query max_results) = Ok results ->
  forall c, c ∈ results ->
    answer_chunk query c
    /\ exists s, c !! "score" = Some (PFloat s) /\ (0 < s)%Q /\ (s <= 1)%Q.
Proof.
  intros Hres.
  assert (Hall : Forall (answer_chunk query) results).
  { unfold _search_json_files in Hres.
    destruct (json_dir env) as [files|];
      [|cbn in Hres; by assert (results = []) as -> by congruence].
    cbn zeta in Hres.
    destruct (Nat.eqb_spec (size (tokens query)) 0) as [|Hq];
      [cbn in Hres; by assert (results = []) as -> by congruence|].
    pose proof (scan_files_answers query files [] [] ) as Hscan.
    destruct (scan_files (tokens query) files [] []) as [log [ranked|e]];
      [|done].
    cbn in Hres. injection Hres as <-.
    specialize (Hscan ranked Hq (Forall_nil_2 _) eq_refl).
    apply Forall_fmap. unfold slice_to.
    destruct (0 <=? max_results)%Z; apply Forall_take;
      by rewrite sort_desc_perm. }
  intros c Hc. rewrite Forall_forall in Hall. specialize (Hall c Hc).
  split; [done|]. destruct Hall as (text & src & _ & Hov & ->).
  eexists. split; [done|].
  apply ratio_bounds; [done|]. apply subseteq_size, intersection_subseteq_l.
Qed.

Lemma search_results_shape_witness :
  answer_chunk "alpha gamma"
    {[ "content" := PStr "alpha beta"; "source" := PStr "Doc1";
       "score" := PFloat (1 # 2) ]}
  /\ exists s,
       ({[ "content" := PStr "alpha beta"; "source" := PStr "Doc1";
           "score" := PFloat (1 # 2) ]} : gmap string value) !! "score"
       = Some (PFloat s)
       /\ (0 < s)%Q /\ (s <= 1)%Q.
Proof.
  apply (search_results_shape (corpus_env [broken; empty_object; doc1])
           "alpha gamma" 1
           [ {[ "content" := PStr "alpha beta"; "source" := PStr "Doc1";
                "score" := PFloat (1 # 2) ]} ]).
  - by vm_compute.
  - apply list_elem_of_here.
Defined.

(** On a directory of tolerated files the search returns
    min(max_results, matches) chunks when [max_results] is not negative; a
    negative [max_results] removes that many chunks from the end of the
    ranking.  It never returns more chunks than the corpus has records.
    The results are the start of the ranking, which is the matches sorted
    by decreasing score with equal scores in the order they were met: the
    chunks that are left out are the last ones, and for a negative
    [max_results] there are [- max_results] of them, or as many as the
    ranking has. *)
Theorem search_result_count (env : environment) (query : string)
    (max_results : Z) (files : list json_file) :
  json_dir env = Some files ->
  forallb tolerated_file files = true ->
  exists results,
    snd (_search_json_files env query max_results) = Ok results
    /\ length results
       = (if (0 <=? max_results)%Z
          then Nat.min (Z.to_nat max_results)
                       (length (candidates query files))
          else length (candidates query files) - Z.to_nat (- max_results))
    /\ length results <= length (records files)
    /\ exists (ranked : list scored) (dropped : list (gmap string value)),
         ranked ≡ₚ candidates query files
         /\ descending fst ranked
         /\ (forall s : Q,
               with_key fst s ranked
               = with_key fst s (candidates query files))
         /\ map snd ranked = results ++ dropped
         /\ ((max_results < 0)%Z ->
             length dropped
             = Nat.min (Z.to_nat (- max_results)) (length ranked)).
Proof.
  intros Hdir Hok.
  rewrite (search_tolerated env query max_results files Hdir Hok).
  eexists. split; [done|].
  assert (Hcand : length (candidates query files) <= length (records files)).
  { unfold candidates. rewrite length_map. apply length_filter. }
  assert (Hsort : length (sort_desc fst (candidates query files))
                  = length (candidates query files)).
  { by rewrite sort_desc_perm. }
  split; [|split].
  - rewrite length_map. unfold slice_to.
    destruct (0 <=? max_results)%Z; rewrite length_take, Hsort; lia.
  - rewrite length_map. unfold slice_to.
    destruct (0 <=? max_results)%Z; rewrite length_take, Hsort; lia.
  - exists (sort_desc fst (candidates query files)).
    unfold slice_to.
    destruct (Z.leb_spec 0 max_results) as [Hpos|Hneg].
    + exists (map snd (drop (Z.to_nat max_results)
                         (sort_desc fst (candidates query files)))).
      split; [apply sort_desc_perm|]. split; [apply sort_desc_descending|].
      split; [intros s; apply sort_desc_with_key|].
      split; [|lia].
      by rewrite <- map_app, take_drop.
    + exists (map snd (drop (length (sort_desc fst (candidates query files))
                             - Z.to_nat (- max_results))
                         (sort_desc fst (candidates query files)))).
      split; [apply sort_desc_perm|]. split; [apply sort_desc_descending|].
      split; [intros s; apply sort_desc_with_key|].
      split; [by rewrite <- map_app, take_drop|].
      intros _. rewrite length_map, length_drop. lia.
Qed.

(** With [max_results = -1] the three matches of the corpus give the two
    first chunks of the ranking, and the last one is left out. *)
Lemma search_result_count_witness :
  snd (_search_json_files (corpus_env [broken; mixed; doc1]) "Gamma alpha"
         (-1))
    = Ok [ {[ "content" := PStr "Alpha, GAMMA."; "source" := PStr "Both";
              "score" := PFloat (2 # 2) ]};
           {[ "content" := PStr "gamma"; "source" := PStr "mixed";
              "score" := PFloat (1 # 2) ]} ]
  /\ exists results,
    snd (_search_json_files (corpus_env [broken; mixed; doc1]) "Gamma alpha"
           (-1)) = Ok results
    /\ length results
       = (if (0 <=? -1)%Z
          then Nat.min (Z.to_nat (-1))
                 (length (candidates "Gamma alpha" [broken; mixed; doc1]))
          else length (candidates "Gamma alpha" [broken; mixed; doc1])
               - Z.to_nat (- -1))
    /\ length results <= length (records [broken; mixed; doc1])
    /\ exists (ranked : list scored) (dropped : list (gmap string value)),
         ranked ≡ₚ candidates "Gamma alpha" [broken; mixed; doc1]
         /\ descending fst ranked
         /\ (forall s : Q,
               with_key fst s ranked
               = with_key fst s (candidates "Gamma alpha" [broken; mixed; doc1]))
         /\ map snd ranked = results ++ dropped
         /\ ((-1 < 0)%Z ->
             length dropped = Nat.min (Z.to_nat (- -1)) (length ranked)).
Proof.
  split; [by vm_compute|].
  apply (search_result_count (corpus_env [broken; mixed; doc1]) "Gamma alpha"
           (-1) [broken; mixed; doc1]); [reflexivity | by vm_compute].
Defined.

Lemma tokens_lower (query : string) : tokens (lower query) = tokens query.
Proof. unfold tokens. by rewrite lower_idemp. Qed.

(** The search does not see the case of the query: the query and its
    lower-case form give the same log and the same result, on every
    directory. *)
Theorem search_ignores_query_case (env : environment) (query : string)
    (max_results : Z) :
  _search_json_files env (lower query) max_results
  = _search_json_files env query max_results.
Proof. unfold _search_json_files. by rewrite tokens_lower. Qed.

(** [search_vortex] raises only what the local-corpus search raises, and
    only when that search is the backend in use: by configuration, or as
    the fallback of the MySQL backend without [aiomysql].  A failing MySQL
    query gives the empty list with one logged line, and so does a backend
    name that is neither mysql nor json_files, whatever the query and the
    directory are. *)
Theorem search_vortex_raises_only_from_json (cfg : config)
    (env : environment) (query : string) (max_results : option Z) :
  (forall e : exn,
     snd (search_vortex cfg env query max_results) = Raise e ->
     snd (_search_json_files env query
            (or_default max_results (VORTEX_MAX_CHUNKS cfg))) = Raise e
     /\ (VORTEX_DB_TYPE cfg = "json_files"
         \/ (VORTEX_DB_TYPE cfg = "mysql" /\ mysql env = AiomysqlMissing)))
  /\ (VORTEX_DB_TYPE cfg = "mysql" ->
      mysql env = MysqlFailed ->
      search_vortex cfg env query max_results = ([LogMysqlError], Ok []))
  /\ (VORTEX_DB_TYPE cfg ≠ "mysql" ->
      VORTEX_DB_TYPE cfg ≠ "json_files" ->
      search_vortex cfg env query max_results
      = ([LogUnknownDbType (VORTEX_DB_TYPE cfg)], Ok [])).
Proof.
  unfold search_vortex, _search_mysql. cbn zeta.
  split; [|split].
  - intros e.
    destruct (String.eqb_spec (VORTEX_DB_TYPE cfg) "mysql") as [Hmysql|_].
    + destruct (mysql env); try done.
      unfold lbind, lprint.
      destruct (_search_json_files env query _) as [log r]. cbn [snd].
      intros ->. split; [done|]. by right.
    + destruct (String.eqb_spec (VORTEX_DB_TYPE cfg) "json_files")
        as [Hjson|_]; [|done].
      intros H. split; [done|]. by left.
  - intros -> ->. reflexivity.
  - intros Hmysql Hjson.
    destruct (String.eqb_spec (VORTEX_DB_TYPE cfg) "mysql"); [done|].
    by destruct (String.eqb_spec (VORTEX_DB_TYPE cfg) "json_files").
Qed.

(** A list of numbers in the directory makes the search raise; the same
    directory behind a failing MySQL query or an unknown backend name gives
    the empty list. *)
Lemma search_vortex_raises_only_from_json_witness :
  (snd (_search_json_files (corpus_env [numbers]) "alpha"
          (or_default None (VORTEX_MAX_CHUNKS default_config)))
     = Raise AttributeError
   /\ (VORTEX_DB_TYPE default_config = "json_files"
       \/ (VORTEX_DB_TYPE default_config = "mysql"
           /\ mysql (corpus_env [numbers]) = AiomysqlMissing)))
  /\ search_vortex merge_config
       {| json_dir := Some [numbers]; mysql := MysqlFailed;
          notion := NotionFailed |} "alpha" None
     = ([LogMysqlError], Ok [])
  /\ search_vortex
       {| VORTEX_DB_TYPE := "postgres"; VORTEX_MAX_CHUNKS := 10;
          NOTION_ENABLED := false; NOTION_API_KEY := "";
          NOTION_DATABASE_ID := ""; WP_API_KEY := "" |}
       (corpus_env [numbers]) "alpha" None
     = ([LogUnknownDbType "postgres"], Ok []).
Proof.
  split; [|split].
  - apply (search_vortex_raises_only_from_json default_config
             (corpus_env [numbers]) "alpha" None).
    by vm_compute.
  - by apply (search_vortex_raises_only_from_json merge_config
                {| json_dir := Some [numbers]; mysql := MysqlFailed;
                   notion := NotionFailed |} "alpha" None).
  - apply (search_vortex_raises_only_from_json
             {| VORTEX_DB_TYPE := "postgres"; VORTEX_MAX_CHUNKS := 10;
                NOTION_ENABLED := false; NOTION_API_KEY := "";
                NOTION_DATABASE_ID := ""; WP_API_KEY := "" |}
             (corpus_env [numbers]) "alpha" None); by vm_compute.
Defined.

Lemma search_notion_ok (cfg : config) (env : environment) (query : string)
    (max_results : Z) :
  exists results,
    snd (search_notion cfg env query max_results) = Ok results
    /\ (NOTION_ENABLED cfg = false ->
        search_notion cfg env query max_results = ([], Ok [])).
Proof.
  unfold search_notion.
  destruct (NOTION_ENABLED cfg); cbn [negb]; [|by exists []].
  destruct (String.eqb (NOTION_API_KEY cfg) ""
            || String.eqb (NOTION_DATABASE_ID cfg) ""); [by exists []|].
  destruct (notion env); by eexists.
Qed.

(** [search_notion] never raises.  Disabled, it returns the empty list and
    prints nothing; otherwise it returns a prefix of the results found, of
    at most [max_results] chunks when [max_results] is not negative. *)
Theorem search_notion_soft (cfg : config) (env : environment)
    (query : string) (max_results : Z) :
  exists results,
    snd (search_notion cfg env query max_results) = Ok results
    /\ (NOTION_ENABLED cfg = false ->
        search_notion cfg env query max_results = ([], Ok []))
    /\ ((0 <= max_results)%Z -> length results <= Z.to_nat max_results)
    /\ (forall found, notion env = NotionResults found ->
          results `prefix_of` found).
Proof.
  unfold search_notion.
  destruct (NOTION_ENABLED cfg); cbn [negb].
  2:{ exists []. repeat split; [cbn; lia|intros; apply prefix_nil]. }
  destruct (String.eqb (NOTION_API_KEY cfg) ""
            || String.eqb (NOTION_DATABASE_ID cfg) "").
  { exists []. repeat split; [done|cbn; lia|intros; apply prefix_nil]. }
  destruct (notion env) as [| |found];
    try (exists []; repeat split; [done|cbn; lia|intros; apply prefix_nil]).
  exists (slice_to max_results found). split; [done|]. split; [done|].
  split.
  - intros Hn. rewrite slice_to_nonneg, length_take by done. lia.
  - intros ? [= <-]. unfold slice_to.
    destruct (0 <=? max_results)%Z; apply prefix_take.
Qed.

(** [retrieve_context] raises exactly what the primary search raises; the
    supplementary search cannot make it fail.  With Notion disabled it
    returns the primary result and log unchanged. *)
Theorem retrieve_context_failure (cfg : config) (env : environment)
    (query : string) :
  (forall e, snd (retrieve_context cfg env query) = Raise e
             <-> snd (search_vortex cfg env query None) = Raise e)
  /\ (NOTION_ENABLED cfg = false ->
      retrieve_context cfg env query = search_vortex cfg env query None).
Proof.
  unfold retrieve_context.
  destruct (search_notion_ok cfg env query Notion.default_max_results)
    as (supplementary & Hn & Hoff).
  destruct (search_notion cfg env query Notion.default_max_results)
    as [notion_log notion_r]. cbn [snd] in Hn. subst notion_r.
  destruct (search_vortex cfg env query None) as [vortex_log [primary|e']];
    cbn [snd rbind].
  - split; [done|]. intros Hoff'. specialize (Hoff Hoff').
    injection Hoff as -> ->. by rewrite !app_nil_r.
  - split; [done|]. intros Hoff'. specialize (Hoff Hoff').
    injection Hoff as -> _. by rewrite app_nil_r.
Qed.

(** ** The prompt composer *)

Lemma join_holds_part (sep : string) (parts : list string) (i : nat)
    (p : string) :
  parts !! i = Some p -> exists a b, join sep parts = a +:+ p +:+ b.
Proof.
  revert i. induction parts as [|q rest IH]; intros i; [done|].
  destruct i as [|i]; cbn [lookup list_lookup].
  - intros [= ->]. destruct rest as [|q' rest].
    + exists "", "". by rewrite append_nil_l, append_nil_r.
    + exists "", (sep +:+ join sep (q' :: rest)). done.
  - intros Hp. destruct (IH i Hp) as (a & b & Hjoin).
    destruct rest as [|q' rest]; [done|].
    exists (q +:+ sep +:+ a), b.
    change (join sep (q :: q' :: rest))
      with (q +:+ sep +:+ join sep (q' :: rest)).
    by rewrite Hjoin, !append_assoc.
Qed.

Lemma str_take_append (n : nat) (a b : string) :
  n <= String.length a -> str_take n (a +:+ b) = str_take n a.
Proof.
  revert n. induction a as [|c a IH]; intros [|n] Hn; try done.
  - cbn in Hn. lia.
  - rewrite append_cons. cbn [str_take]. f_equal. apply IH.
    cbn in Hn. lia.
Qed.

(** The grounding text holds, for each chunk, its number in the form
    [Document i], counted from 1, and its whole content; and its source
    label when that is a string. *)
Theorem prompt_holds_every_chunk (repr : value -> string)
    (chunks : list (gmap string value)) (i : nat)
    (chunk : gmap string value) (text : string) :
  chunks !! i = Some chunk ->
  chunk !! "content" = Some (PStr text) ->
  occurs_in text (build_system_prompt repr chunks) = true
  /\ occurs_in ("[Document " +:+ pretty (S i) +:+ "]")
       (build_system_prompt repr chunks) = true
  /\ (forall src, chunk !! "source" = Some (PStr src) ->
        occurs_in ("(Source: " +:+ src +:+ ")")
          (build_system_prompt repr chunks) = true).
Proof.
  intros Hi Htext.
  assert (Hne : chunks ≠ []) by by intros ->.
  rewrite build_system_prompt_blocks by done.
  assert (Hblock :
    imap (fun i chunk => document_block repr (S i) chunk) chunks !! i
    = Some (document_block repr (S i) chunk)).
  { by rewrite list_lookup_imap, Hi. }
  destruct (join_holds_part separator _ _ _ Hblock) as (a & b & ->).
  unfold THAI_LEGAL_SYSTEM_PROMPT, document_block, dict_get.
  rewrite Htext. cbn [default from_option id format_value].
  set (label := format_value repr (default (PStr "Unknown") (chunk !! "source"))).
  split; [|split].
  - apply (occurs_in_infix
             (THAI_LEGAL_SYSTEM_PROMPT_head +:+ a +:+ "[Document "
              +:+ pretty (S i) +:+ "] (Source: " +:+ label +:+ ")" +:+ nl)
             text (b +:+ nl)).
    by rewrite !append_assoc.
  - apply (occurs_in_infix
             (THAI_LEGAL_SYSTEM_PROMPT_head +:+ a)
             ("[Document " +:+ pretty (S i) +:+ "]")
             (" (Source: " +:+ label +:+ ")" +:+ nl +:+ text +:+ b +:+ nl)).
    by rewrite !append_assoc.
  - intros src Hsrc. subst label. rewrite Hsrc.
    cbn [default from_option id format_value].
    apply (occurs_in_infix
             (THAI_LEGAL_SYSTEM_PROMPT_head +:+ a +:+ "[Document "
              +:+ pretty (S i) +:+ "] ")
             ("(Source: " +:+ src +:+ ")")
             (nl +:+ text +:+ b +:+ nl)).
    by rewrite !append_assoc.
Qed.

Lemma prompt_holds_every_chunk_witness :
  occurs_in "Section 420"
    (build_system_prompt repr0 [high_chunk; low_chunk]) = true
  /\ occurs_in ("[Document " +:+ pretty 2 +:+ "]")
       (build_system_prompt repr0 [high_chunk; low_chunk]) = true
  /\ (forall src, low_chunk !! "source" = Some (PStr src) ->
        occurs_in ("(Source: " +:+ src +:+ ")")
          (build_system_prompt repr0 [high_chunk; low_chunk]) = true).
Proof.
  apply (prompt_holds_every_chunk repr0 [high_chunk; low_chunk] 1 low_chunk
           "Section 420"); reflexivity.
Defined.

(** The fallback prompt is returned for the empty chunk list and for no
    other: with at least one chunk the prompt differs from it, whatever the
    chunks hold. *)
Theorem fallback_prompt_iff_no_chunks (repr : value -> string)
    (chunks : list (gmap string value)) :
  build_system_prompt repr chunks = NO_CONTEXT_SYSTEM_PROMPT <-> chunks = [].
Proof.
  split; [|by intros ->].
  destruct chunks as [|chunk rest]; [done|]. intros H.
  rewrite build_system_prompt_blocks in H by done.
  apply (f_equal (str_take 100)) in H.
  unfold THAI_LEGAL_SYSTEM_PROMPT in H.
  rewrite str_take_append in H by (vm_compute; lia).
  vm_compute in H. discriminate H.
Qed.

(** ** The prompt composer, on the text it returns *)

Lemma document_block_label (repr : value -> string) (i : nat)
    (chunk : gmap string value) :
  document_block repr i chunk =
    document_label i +:+ " (Source: "
    +:+ format_value repr (dict_get chunk "source" (PStr "Unknown"))
    +:+ ")" +:+ nl
    +:+ format_value repr (dict_get chunk "content" (PStr "")).
Proof.
  unfold document_block, document_label. by rewrite !append_assoc.
Qed.

(** The prompt of a non-empty chunk list holds the block of each chunk. *)
Lemma prompt_holds_block (repr : value -> string)
    (chunks : list (gmap string value)) (i : nat)
    (chunk : gmap string value) :
  chunks !! i = Some chunk ->
  exists a b,
    build_system_prompt repr chunks
      = a +:+ document_block repr (S i) chunk +:+ b.
Proof.
  intros Hi.
  assert (Hne : chunks ≠ []) by by intros ->.
  rewrite build_system_prompt_blocks by done.
  assert (Hblock :
    imap (fun i chunk => document_block repr (S i) chunk) chunks !! i
    = Some (document_block repr (S i) chunk)).
  { by rewrite list_lookup_imap, Hi. }
  destruct (join_holds_part separator _ _ _ Hblock) as (a & b & ->).
  exists (THAI_LEGAL_SYSTEM_PROMPT_head +:+ a), (b +:+ nl).
  unfold THAI_LEGAL_SYSTEM_PROMPT. by rewrite !append_assoc.
Qed.

Lemma prompt_holds_label (repr : value -> string)
    (chunks : list (gmap string value)) (i : nat)
    (chunk : gmap string value) :
  chunks !! i = Some chunk ->
  occurs_in (document_label (S i)) (build_system_prompt repr chunks) = true.
Proof.
  intros Hi. destruct (prompt_holds_block repr chunks i chunk Hi)
    as (a & b & ->).
  rewrite document_block_label.
  apply (occurs_in_infix a (document_label (S i))
           (" (Source: "
            +:+ format_value repr (dict_get chunk "source" (PStr "Unknown"))
            +:+ ")" +:+ nl
            +:+ format_value repr (dict_get chunk "content" (PStr ""))
            +:+ b)).
  by rewrite !append_assoc.
Qed.

(** C4, as stated, fails: no budget caps the chunks that the text of the
    prompt embeds.  Were there one, the label of a chunk past the budget
    would be absent from the prompt of a list of chunks without content and
    source; it is there for every length of the list.  The prompt of ten
    chunks holds the tenth with its number, its source and its content. *)
Lemma prompt_composer_has_no_budget :
  (~ exists budget : nat,
       forall n i : nat,
         budget <= i -> i < n ->
         occurs_in (document_label (S i))
           (build_system_prompt repr0 (replicate n ∅)) = false)
  /\ length ten_chunks = 10
  /\ occurs_in ("[Document 10] (Source: Civil Code)" +:+ nl +:+ "chunk10")
       (build_system_prompt repr0 ten_chunks) = true.
Proof.
  split; [|split; by vm_compute].
  intros [budget Hcap].
  specialize (Hcap (S budget) budget (le_n _) (Nat.lt_succ_diag_r _)).
  rewrite (prompt_holds_label repr0 (replicate (S budget) ∅) budget ∅)
    in Hcap; [done|].
  apply lookup_replicate_2. lia.
Qed.

(** C4, as amended.  [retrieve_context] does not truncate the concatenation,
    and the prompt composer embeds every chunk it is given, one numbered
    block for each: neither of them caps the number of chunks.  The text
    that [build_system_prompt] returns holds, for every chunk of every list,
    the block of that chunk with its number, and so does the system message
    built from the merged chunks. *)
Theorem no_truncation_and_no_cap (repr : value -> string) (cfg : config)
    (env : environment) (query : string)
    (vortex_log notion_log : list log_line)
    (primary supplementary : list (gmap string value)) :
  search_vortex cfg env query None = (vortex_log, Ok primary) ->
  search_notion cfg env query Notion.default_max_results
    = (notion_log, Ok supplementary) ->
  exists merged messages,
    snd (retrieve_context cfg env query) = Ok merged
    /\ length merged = length primary + length supplementary
    /\ snd (retrieve_and_build_messages repr cfg env query)
       = Ok (messages, merged)
    /\ messages !! 0
       = Some {[ "role" := PStr "system";
                 "content" := PStr (build_system_prompt repr merged) ]}
    /\ number_chunks repr 1 merged []
       = imap (fun i chunk => document_block repr (S i) chunk) merged
    /\ length (number_chunks repr 1 merged []) = length merged
    /\ (forall (chunks : list (gmap string value)) (i : nat)
               (chunk : gmap string value),
          chunks !! i = Some chunk ->
          occurs_in (document_block repr (S i) chunk)
            (build_system_prompt repr chunks) = true
          /\ occurs_in (document_label (S i))
               (build_system_prompt repr chunks) = true)
    /\ (forall (i : nat) (chunk : gmap string value),
          (primary ++ supplementary) !! i = Some chunk ->
          exists prompt,
            messages !! 0
              = Some {[ "role" := PStr "system"; "content" := PStr prompt ]}
            /\ occurs_in (document_block repr (S i) chunk) prompt = true).
Proof.
  intros Hv Hn.
  pose proof (retrieve_context_concat _ _ _ _ _ _ _ Hv Hn) as Hctx.
  exists (primary ++ supplementary).
  exists [ {[ "role" := PStr "system";
              "content" :=
                PStr (build_system_prompt repr (primary ++ supplementary)) ]};
           {[ "role" := PStr "user"; "content" := PStr query ]} ].
  unfold retrieve_and_build_messages. rewrite Hctx.
  split; [done|]. split; [apply length_app|].
  split; [done|]. split; [done|].
  rewrite number_chunks_blocks, app_nil_l.
  split; [done|]. split; [apply length_imap|].
  assert (Hblock : forall chunks i chunk,
            chunks !! i = Some chunk ->
            occurs_in (document_block repr (S i) chunk)
              (build_system_prompt repr chunks) = true).
  { intros chunks i chunk Hi.
    destruct (prompt_holds_block repr chunks i chunk Hi) as (a & b & ->).
    apply occurs_in_middle. }
  split.
  - intros chunks i chunk Hi. split; [by apply Hblock|].
    by apply (prompt_holds_label repr chunks i chunk).
  - intros i chunk Hi. eexists. split; [done|]. by apply Hblock.
Qed.

(** The three merged chunks are all in the system message, the third with
    the number 3. *)
Lemma no_truncation_and_no_cap_witness :
  occurs_in ("[Document 3] (Source: Civil Code)" +:+ nl +:+ "Section 420")
    (build_system_prompt repr0 ([low_chunk] ++ [high_chunk; low_chunk])) = true
  /\ exists merged messages,
    snd (retrieve_context merge_config merge_env "Section 420") = Ok merged
    /\ length merged = length [low_chunk] + length [high_chunk; low_chunk]
    /\ snd (retrieve_and_build_messages repr0 merge_config merge_env
              "Section 420")
       = Ok (messages, merged)
    /\ messages !! 0
       = Some {[ "role" := PStr "system";
                 "content" := PStr (build_system_prompt repr0 merged) ]}
    /\ number_chunks repr0 1 merged []
       = imap (fun i chunk => document_block repr0 (S i) chunk) merged
    /\ length (number_chunks repr0 1 merged []) = length merged
    /\ (forall (chunks : list (gmap string value)) (i : nat)
               (chunk : gmap string value),
          chunks !! i = Some chunk ->
          occurs_in (document_block repr0 (S i) chunk)
            (build_system_prompt repr0 chunks) = true
          /\ occurs_in (document_label (S i))
               (build_system_prompt repr0 chunks) = true)
    /\ (forall (i : nat) (chunk : gmap string value),
          ([low_chunk] ++ [high_chunk; low_chunk]) !! i = Some chunk ->
          exists prompt,
            messages !! 0
              = Some {[ "role" := PStr "system"; "content" := PStr prompt ]}
            /\ occurs_in (document_block repr0 (S i) chunk) prompt = true).
Proof.
  split; [by vm_compute|].
  apply (no_truncation_and_no_cap repr0 merge_config merge_env "Section 420"
           [] [] [low_chunk] [high_chunk; low_chunk]); reflexivity.
Defined.


(** ** The request and response models *)

(** A body is accepted as a [ChatRequest] exactly when its message is a
    string of 1 to 5000 characters and its session id is missing, and then
    empty, or a string of at most 200 characters; the accepted request holds
    these two strings unchanged. *)
Theorem ChatRequest_accepts_iff (body : gmap string value)
    (chat_request : ChatRequest) :
  ChatRequest_validate body = Ok chat_request
  <-> body !! "message" = Some (PStr (message chat_request))
      /\ 1 <= String.length (message chat_request) <= 5000
      /\ ((body !! "session_id" = None /\ session_id chat_request = "")
          \/ body !! "session_id" = Some (PStr (session_id chat_request)))
      /\ String.length (session_id chat_request) <= 200.
Proof.
  unfold ChatRequest_validate. destruct chat_request as [m s]. cbn [message session_id].
  split.
  - destruct (body !! "message") as [[| | | |m'| |]|]; try done.
    cbn [rbind str_field].
    destruct (Nat.ltb_spec (String.length m') 1); [done|].
    destruct (Nat.ltb_spec 5000 (String.length m')); [done|]. cbn [orb].
    destruct (body !! "session_id") as [[| | | |s'| |]|]; try done;
      cbn [rbind str_field].
    + destruct (Nat.ltb_spec 200 (String.length s')); [done|].
      intros [= <- <-]. repeat split; try lia. by right.
    + intros [= <- <-]. repeat split; try (cbn; lia). by left.
  - intros (-> & Hlen & Hs & Hslen). cbn [rbind str_field].
    destruct (Nat.ltb_spec (String.length m) 1); [lia|].
    destruct (Nat.ltb_spec 5000 (String.length m)); [lia|]. cbn [orb].
    destruct Hs as [[-> ->]| ->]; cbn [rbind str_field]; [done|].
    by destruct (Nat.ltb_spec 200 (String.length s)); [lia|].
Qed.


Lemma citation_of_ok_iff (chunk : gmap string value) :
  (exists citation, citation_of chunk = Ok citation)
  <-> is_str (default (PStr "Unknown") (chunk !! "source"))
      /\ is_str (default (PStr "") (chunk !! "content")).
Proof.
  unfold citation_of, SourceCitation_new, dict_get, is_str. split.
  - intros [citation H].
    destruct (default (PStr "") (chunk !! "content")) as [| | | |text|l|d];
      try done; cbn [obj_slice_to rbind] in H.
    + destruct (default (PStr "Unknown") (chunk !! "source"))
        as [| | | |src| |]; try done. eauto.
    + by destruct (str_field _).
  - intros [[src ->] [text ->]]. cbn. eauto.
Qed.

(** The citations can be built exactly when, in every chunk, the source and
    the content are strings or missing; a chunk whose source is a number,
    say, makes the handler fail.  Every excerpt built has at most 200
    characters. *)
Theorem build_sources_ok_iff (chunks : list (gmap string value)) :
  ((exists citations, build_sources chunks = Ok citations)
   <-> Forall (fun chunk =>
                 is_str (default (PStr "Unknown") (chunk !! "source"))
                 /\ is_str (default (PStr "") (chunk !! "content")))
              chunks)
  /\ (forall citations,
        build_sources chunks = Ok citations ->
        Forall (fun citation => String.length (excerpt citation) <= 200)
               citations).
Proof.
  unfold build_sources. split.
  - induction chunks as [|chunk rest IH]; cbn [mapM].
    { split; [done|]. by exists []. }
    rewrite Forall_cons, <- IH, <- citation_of_ok_iff.
    destruct (citation_of chunk) as [citation|e]; cbn [rbind].
    + destruct (mapM citation_of rest) as [citations|e]; cbn [rbind].
      * split; eauto.
      * split; [by intros [? ?]|]. by intros [_ [? ?]].
    + split; [by intros [? ?]|]. by intros [[? ?] _].
  - intros citations Hok. apply Forall_forall. intros citation Hin.
    apply list_elem_of_lookup in Hin as [i Hi].
    apply mapM_ok in Hok as [Hlen Hall].
    destruct (lookup_lt_is_Some_2 chunks i) as [chunk Hchunk].
    { rewrite <- Hlen. by eapply lookup_lt_Some. }
    destruct (Hall i chunk Hchunk) as (citation' & Hi' & Hof).
    assert (citation' = citation) as -> by congruence.
    apply citation_of_ok in Hof as (text & _ & _ & ->).
    rewrite length_str_take. lia.
Qed.

(** ** The chat handler, past its gate *)

Arguments store {Store} _.
Arguments stdout {Store} _.
Arguments calls {Store} _.
Arguments uuids_drawn {Store} _.

Section HandlerRuns.
Context (repr : value -> string) (cfg : config) (env : environment).
Context (Store Conversation : Type).
Context (get_conversation : string -> Store -> option Conversation).
Context (create_conversation : string -> Store -> Store).
Context (add_user_message : string -> string -> Store -> Store).
Context (add_assistant_message :
  string -> list (gmap string value) -> list (gmap string value) ->
  gmap string value -> Store -> Store).
Context (run_full_council :
  string -> list (gmap string value) ->
  result (list (gmap string value) * list (gmap string value)
          * gmap string value * gmap string value)).
Context (uuid4 : nat -> string).

Local Abbreviation chat :=
  (wordpress_chat repr cfg env Store Conversation get_conversation
     create_conversation add_user_message add_assistant_message
     run_full_council uuid4).

Ltac run_handler H :=
  cbn [draw_uuid4 ret raise called update_store run_logged lift
       store stdout calls uuids_drawn fst snd] in H.

Lemma str_field_ok (v : value) (s : string) : str_field v = Ok s -> v = PStr s.
Proof. destruct v; cbn; congruence. Qed.

(** What an answered request leaves behind.  The session is the one of the
    body, or a fresh identifier when the body has none; the query is the
    stripped message, which holds a character that is not white space; the
    conversation, created if it was missing, has received the stripped
    message and then the stages of the council run on that query; the answer
    is the response of the third stage. *)
Theorem successful_chat_effects (request : Request) (body : ChatRequest)
    (w w' : world Store) (response : ChatResponse) :
  chat request body w = (Ok response, w') ->
  let sid := if String.eqb (session_id body) "" then uuid4 (uuids_drawn w)
             else session_id body in
  let query := strip (message body) in
  exists messages chunks stage1 stage2 stage3 metadata,
    snd (retrieve_and_build_messages repr cfg env query)
      = Ok (messages, chunks)
    /\ run_full_council query messages
       = Ok (stage1, stage2, stage3, metadata)
    /\ response_session_id response = sid
    /\ PStr (answer response) = default (PStr "") (stage3 !! "response")
    /\ store w'
       = add_assistant_message sid stage1 stage2 stage3
           (add_user_message sid query
              match get_conversation sid (store w) with
              | None => create_conversation sid (store w)
              | Some _ => store w
              end)
    /\ uuids_drawn w'
       = (if String.eqb (session_id body) "" then S (uuids_drawn w)
          else uuids_drawn w)
    /\ all_space (message body) = false.
Proof.
  intros Hrun sid query. unfold wordpress_chat, bind in Hrun.
  destruct (validate_api_key_cases cfg Store request w) as [[Hv _]|[Hv _]];
    rewrite Hv in Hrun; [|done].
  fold query in Hrun.
  destruct (String.eqb_spec query "") as [|Hquery]; [done|].
  assert (Hblank : all_space (message body) = false).
  { destruct (all_space (message body)) eqn:Hsp; [|done].
    by apply strip_empty_iff in Hsp. }
  subst sid.
  destruct (String.eqb (session_id body) ""); run_handler Hrun.
  all: destruct (get_conversation _ (store w)); run_handler Hrun.
  all: destruct (retrieve_and_build_messages repr cfg env query)
         as [log [[messages chunks]|e]]; run_handler Hrun; [|done].
  all: destruct (run_full_council query messages)
         as [[[[stage1 stage2] stage3] metadata]|e] eqn:Hcouncil; [|done].
  all: destruct (build_sources chunks) as [srcs|e]; [|done].
  all: destruct (mapM _ stage1) as [models_used|e]; [|done].
  all: unfold lift, ChatResponse_new in Hrun.
  all: destruct (str_field _) as [a|e] eqn:Hanswer; cbn [rbind] in Hrun;
         [|done].
  all: apply str_field_ok in Hanswer.
  all: injection Hrun as <- <-.
  all: by exists messages, chunks, stage1, stage2, stage3, metadata.
Qed.

(** When the retrieval raises, or the council does, the handler raises the
    same exception; the conversation then holds the stripped user message
    and no answer, and the council was not called unless the retrieval had
    returned. *)
Theorem failed_chat_keeps_user_message (request : Request)
    (body : ChatRequest) (w : world Store) (e : exn) :
  ~ key_rejected cfg request ->
  strip (message body) ≠ "" ->
  let sid := if String.eqb (session_id body) "" then uuid4 (uuids_drawn w)
             else session_id body in
  let query := strip (message body) in
  snd (retrieve_and_build_messages repr cfg env query) = Raise e
  \/ (exists messages chunks,
        snd (retrieve_and_build_messages repr cfg env query)
          = Ok (messages, chunks)
        /\ run_full_council query messages = Raise e) ->
  exists w',
    chat request body w = (Raise e, w')
    /\ store w'
       = add_user_message sid query
           match get_conversation sid (store w) with
           | None => create_conversation sid (store w)
           | Some _ => store w
           end
    /\ (forall sid', CallAddAssistantMessage sid' ∈ calls w' ->
                     CallAddAssistantMessage sid' ∈ calls w)
    /\ (CallCouncil query ∈ calls w' ->
        CallCouncil query ∈ calls w
        \/ exists r, snd (retrieve_and_build_messages repr cfg env query)
                     = Ok r).
Proof.
  intros Hkey Hquery sid query Hfail. unfold wordpress_chat, bind.
  destruct (validate_api_key_cases cfg Store request w) as [[Hv _]|[_ Hbad]];
    [rewrite Hv|done].
  fold query. destruct (String.eqb_spec query "") as [|_]; [done|].
  subst sid.
  destruct (String.eqb (session_id body) "");
    cbn [draw_uuid4 ret raise called update_store run_logged lift
         store stdout calls uuids_drawn fst snd].
  all: destruct (get_conversation _ (store w));
    cbn [draw_uuid4 ret raise called update_store run_logged lift
         store stdout calls uuids_drawn fst snd].
  all: destruct (retrieve_and_build_messages repr cfg env query)
         as [log [[messages chunks]|e']];
    cbn [draw_uuid4 ret raise called update_store run_logged lift
         store stdout calls uuids_drawn fst snd] in *.
  all: destruct Hfail as [Hretrieve|(messages' & chunks' & Hretrieve & Hcouncil)];
    try done.
  all: try (injection Hretrieve as <- <-; rewrite Hcouncil).
  all: try (injection Hretrieve as <-).
  all: eexists; split; [done|]; cbn [store calls]; split; [done|].
  all: split; [intros sid'|]; rewrite !elem_of_app, !list_elem_of_singleton;
         intros H; decompose [or] H; try done; eauto.
Qed.
End HandlerRuns.

Lemma successful_chat_effects_witness :
  exists stage3 : gmap string value,
    PStr "Final answer" = default (PStr "") (stage3 !! "response")
    /\ all_space (message alpha_request) = false.
Proof.
  destruct (successful_chat_effects repr0 json_config
              (corpus_env [mixed; doc1]) store0 (list string)
              get_conversation0 create_conversation0 add_user_message0
              add_assistant_message0 run_full_council0 uuid0
              anonymous_request alpha_request world0
              (snd (chat0 json_config (corpus_env [mixed; doc1])
                      anonymous_request alpha_request world0))
              {| answer := "Final answer";
                 sources :=
                   [ {| source := "Both"; excerpt := "Alpha, GAMMA." |};
                     {| source := "mixed"; excerpt := "gamma" |};
                     {| source := "Doc1"; excerpt := "alpha beta" |} ];
                 response_session_id := "session-0";
                 council_metadata :=
                   {[ "models_used" :=
                        PList [PStr "openai/gpt-5.1";
                               PStr "google/gemini-3-pro-preview"];
                      "chairman" := PStr CHAIRMAN_MODEL;
                      "aggregate_rankings" := PList [] ]} |})
    as (_ & _ & _ & _ & stage3 & _ & _ & _ & _ & Hanswer & _ & _ & Hblank).
  - by vm_compute.
  - by exists stage3.
Defined.

(** A list of numbers in the corpus makes the request fail after the user
    message was stored. *)
Lemma failed_chat_keeps_user_message_witness :
  exists w',
    chat0 json_config (corpus_env [numbers]) anonymous_request alpha_request
      world0
      = (Raise AttributeError, w')
    /\ store w' = [("session-0", ["alpha gamma"])].
Proof.
  destruct (failed_chat_keeps_user_message repr0 json_config
              (corpus_env [numbers]) store0 (list string)
              get_conversation0 create_conversation0 add_user_message0
              add_assistant_message0 run_full_council0 uuid0
              anonymous_request alpha_request world0 AttributeError)
    as (w' & Hrun & Hstore & _).
  - intros [Hkey _]. by apply Hkey.
  - by vm_compute.
  - left. by vm_compute.
  - exists w'. split; [exact Hrun|]. rewrite Hstore. by vm_compute.
Defined.

(** ** The streaming endpoint *)

Section StreamRuns.
Context (repr : value -> string) (cfg : config) (env : environment).
Context (Store Conversation : Type).
Context (get_conversation : string -> Store -> option Conversation).
Context (create_conversation : string -> Store -> Store).
Context (add_user_message : string -> string -> Store -> Store).
Context (add_assistant_message :
  string -> list (gmap string value) -> list (gmap string value) ->
  gmap string value -> Store -> Store).
Context (stage1_collect_responses :
  string -> list (gmap string value) -> result (list (gmap string value))).
Context (stage2_collect_rankings :
  string -> list (gmap string value) ->
  result (list (gmap string value) * gmap string value)).
Context (stage3_synthesize_final :
  string -> list (gmap string value) -> list (gmap string value) ->
  result (gmap string value)).
Context (uuid4 : nat -> string).
Context (exn_text : exn -> string).

Local Abbreviation stream :=
  (wordpress_chat_stream repr cfg env Store Conversation get_conversation
     create_conversation add_user_message add_assistant_message
     stage1_collect_responses stage2_collect_rankings stage3_synthesize_final
     uuid4 exn_text).

Local Abbreviation generator :=
  (event_generator repr cfg env Store add_user_message add_assistant_message
     stage1_collect_responses stage2_collect_rankings stage3_synthesize_final
     exn_text).

Ltac run_generator :=
  cbn [gbind yield run update_store run_logged lift ret raise draw_uuid4
       store stdout calls uuids_drawn fst snd app].

Lemma generator_runs (sid user_message : string) (w : world Store) :
  exists count k last w',
    generator sid user_message w
      = (take k (progress_events count) ++ [last], w')
    /\ ((k = 6 /\ last !! "type" = Some (PStr "complete"))
        \/ ((k = 1 \/ k = 2 \/ k = 4 \/ k = 6)
            /\ exists e, last = error_event exn_text e)).
Proof.
  unfold event_generator, event_generator_body. run_generator.
  destruct (retrieve_and_build_messages repr cfg env user_message)
    as [log [[messages chunks]|e]]; run_generator.
  2:{ exists 0, 1, (error_event exn_text e). eexists. split; [done|].
      right. split; [by left|by exists e]. }
  destruct (stage1_collect_responses user_message messages) as [stage1|e];
    run_generator.
  2:{ exists 0, 2, (error_event exn_text e). eexists. split; [done|].
      right. split; [by right; left|by exists e]. }
  destruct (stage2_collect_rankings user_message stage1)
    as [[stage2 label_to_model]|e]; run_generator.
  2:{ exists (length stage1), 4, (error_event exn_text e). eexists.
      split; [done|]. right. split; [by right; right; left|by exists e]. }
  destruct (stage3_synthesize_final user_message stage1 stage2)
    as [stage3|e]; run_generator.
  2:{ exists (length stage1), 6, (error_event exn_text e). eexists.
      split; [done|]. right. split; [by right; right; right|by exists e]. }
  destruct (mapM stream_source chunks) as [srcs|e]; run_generator.
  2:{ exists (length stage1), 6, (error_event exn_text e). eexists.
      split; [done|]. right. split; [by right; right; right|by exists e]. }
  exists (length stage1), 6. eexists. eexists. split; [done|]. left.
  split; [done|]. unfold complete_event. by rewrite lookup_insert_eq.
Qed.

(** What the generator leaves: either every step succeeded, and the events
    are the six progress events and the complete event; or a step raised,
    the last event reports that exception, and no answer was stored. *)
Lemma generator_outcome (sid query : string) (w : world Store) :
  (exists messages chunks stage1 stage2 label_to_model stage3 srcs,
     snd (retrieve_and_build_messages repr cfg env query)
       = Ok (messages, chunks)
     /\ stage1_collect_responses query messages = Ok stage1
     /\ stage2_collect_rankings query stage1 = Ok (stage2, label_to_model)
     /\ stage3_synthesize_final query stage1 stage2 = Ok stage3
     /\ mapM stream_source chunks = Ok srcs
     /\ fst (generator sid query w)
        = progress_events (length stage1)
          ++ [complete_event (default (PStr "") (stage3 !! "response"))
                srcs sid]
     /\ store (snd (generator sid query w))
        = add_assistant_message sid stage1 stage2 stage3
            (add_user_message sid query (store w)))
  \/ (exists e,
        last (fst (generator sid query w)) = Some (error_event exn_text e)
        /\ store (snd (generator sid query w))
           = add_user_message sid query (store w)
        /\ (snd (retrieve_and_build_messages repr cfg env query) = Raise e
            \/ exists messages chunks,
                 snd (retrieve_and_build_messages repr cfg env query)
                   = Ok (messages, chunks)
                 /\ (stage1_collect_responses query messages = Raise e
                     \/ exists stage1,
                          stage1_collect_responses query messages = Ok stage1
                          /\ (stage2_collect_rankings query stage1 = Raise e
                              \/ exists stage2 label_to_model,
                                   stage2_collect_rankings query stage1
                                     = Ok (stage2, label_to_model)
                                   /\ (stage3_synthesize_final query stage1
                                         stage2 = Raise e
                                       \/ ((exists stage3,
                                              stage3_synthesize_final query
                                                stage1 stage2 = Ok stage3)
                                           /\ mapM stream_source chunks
                                              = Raise e)))))).
Proof.
  unfold event_generator, event_generator_body. run_generator.
  destruct (retrieve_and_build_messages repr cfg env query)
    as [log [[messages chunks]|e]]; run_generator.
  2:{ right. exists e. split; [done|]. split; [done|]. by left. }
  destruct (stage1_collect_responses query messages) as [stage1|e] eqn:H1;
    run_generator.
  2:{ right. exists e. split; [done|]. split; [done|].
      right. exists messages, chunks. split; [done|]. by left. }
  destruct (stage2_collect_rankings query stage1)
    as [[stage2 label_to_model]|e] eqn:H2; run_generator.
  2:{ right. exists e. split; [done|]. split; [done|].
      right. exists messages, chunks. split; [done|].
      right. exists stage1. split; [done|]. by left. }
  destruct (stage3_synthesize_final query stage1 stage2)
    as [stage3|e] eqn:H3; run_generator.
  2:{ right. exists e. split; [done|]. split; [done|].
      right. exists messages, chunks. split; [done|].
      right. exists stage1. split; [done|].
      right. exists stage2, label_to_model. split; [done|]. by left. }
  destruct (mapM stream_source chunks) as [srcs|e] eqn:H4; run_generator.
  2:{ right. exists e. split; [done|]. split; [done|].
      right. exists messages, chunks. split; [done|].
      right. exists stage1. split; [done|].
      right. exists stage2, label_to_model. split; [done|].
      right. split; [by exists stage3|done]. }
  left. by exists messages, chunks, stage1, stage2, label_to_model, stage3, srcs.
Qed.

Lemma let_pair {A B C} (p : A * B) (f : A -> C) :
  (let '(a, b) := p in (f a, b)) = (f (fst p), snd p).
Proof. by destruct p. Qed.

Lemma stream_accepted (request : Request) (body : ChatRequest)
    (w : world Store) :
  ~ key_rejected cfg request ->
  strip (message body) ≠ "" ->
  let sid := if String.eqb (session_id body) "" then uuid4 (uuids_drawn w)
             else session_id body in
  exists w1,
    stream request body w
      = (Ok (fst (generator sid (strip (message body)) w1)),
         snd (generator sid (strip (message body)) w1))
    /\ store w1 = match get_conversation sid (store w) with
                  | None => create_conversation sid (store w)
                  | Some _ => store w
                  end.
Proof.
  intros Hkey Hquery sid. unfold wordpress_chat_stream, bind.
  destruct (validate_api_key_cases cfg Store request w) as [[Hv _]|[_ Hbad]];
    [rewrite Hv|done].
  destruct (String.eqb_spec (strip (message body)) "") as [|_]; [done|].
  subst sid.
  destruct (String.eqb (session_id body) "");
    cbn [draw_uuid4 ret update_store store stdout calls uuids_drawn].
  all: destruct (get_conversation _ (store w));
    cbn [draw_uuid4 ret update_store store stdout calls uuids_drawn].
  all: eexists; split; [apply let_pair|done].
Qed.

(** The streaming endpoint has the gate of the chat endpoint: a rejected
    key gives 401 and a blank message 400, in the state the request found;
    past the gate it always returns a stream, whatever fails later. *)
Theorem stream_gate (request : Request) (body : ChatRequest)
    (w : world Store) :
  (key_rejected cfg request ->
   stream request body w
     = (Raise (HTTPException 401 "Invalid or missing API key"), w))
  /\ (~ key_rejected cfg request -> all_space (message body) = true ->
      stream request body w
        = (Raise (HTTPException 400 "Message cannot be empty"), w))
  /\ (~ key_rejected cfg request -> all_space (message body) = false ->
      exists events w', stream request body w = (Ok events, w')).
Proof.
  split; [|split].
  - intros Hbad. unfold wordpress_chat_stream, bind.
    by destruct (validate_api_key_cases cfg Store request w)
      as [[_ Hok]|[-> _]].
  - intros Hkey Hblank%strip_empty_iff. unfold wordpress_chat_stream, bind.
    destruct (validate_api_key_cases cfg Store request w)
      as [[-> _]|[_ Hbad]]; [|done].
    by rewrite Hblank.
  - intros Hkey Hblank.
    destruct (stream_accepted request body w Hkey) as (w1 & -> & _); [|eauto].
    intros Hempty%strip_empty_iff. congruence.
Qed.

(** The events of a stream are a prefix of the progress events, of length
    1, 2, 4 or 6, followed by one last event: the complete event after all
    six, or an error event. *)
Theorem stream_shape (request : Request) (body : ChatRequest)
    (w w' : world Store) (events : list (gmap string value)) :
  stream request body w = (Ok events, w') ->
  exists count k last,
    events = take k (progress_events count) ++ [last]
    /\ ((k = 6 /\ last !! "type" = Some (PStr "complete"))
        \/ ((k = 1 \/ k = 2 \/ k = 4 \/ k = 6)
            /\ exists e, last = error_event exn_text e)).
Proof.
  intros Hrun.
  destruct (validate_api_key_cases cfg Store request w) as [[Hv Hkey]|[Hv _]].
  2:{ unfold wordpress_chat_stream, bind in Hrun. by rewrite Hv in Hrun. }
  destruct (String.eqb_spec (strip (message body)) "") as [Hblank|Hquery].
  { unfold wordpress_chat_stream, bind in Hrun.
    by rewrite Hv, Hblank in Hrun. }
  destruct (stream_accepted request body w Hkey Hquery) as (w1 & Hs & _).
  rewrite Hs in Hrun. injection Hrun as <- _.
  match goal with
  | |- context [fst (event_generator _ _ _ _ _ _ _ _ _ _ ?sid ?q w1)] =>
      destruct (generator_runs sid q w1)
        as (count & k & last & w2 & -> & Hshape)
  end.
  by exists count, k, last.
Qed.

(** A stream ends with the complete event exactly when the retrieval, the
    three stages and the excerpts all succeeded; the conversation then holds
    the user message and the answer.  Otherwise the last event is the error
    of the first step that raised, the steps before it having succeeded, and
    the conversation holds the user message only. *)
Theorem stream_outcome (request : Request) (body : ChatRequest)
    (w w' : world Store) (events : list (gmap string value)) :
  stream request body w = (Ok events, w') ->
  let sid := if String.eqb (session_id body) "" then uuid4 (uuids_drawn w)
             else session_id body in
  let query := strip (message body) in
  let opened := match get_conversation sid (store w) with
                | None => create_conversation sid (store w)
                | Some _ => store w
                end in
  ((exists messages chunks stage1 stage2 label_to_model stage3 srcs,
      snd (retrieve_and_build_messages repr cfg env query)
        = Ok (messages, chunks)
      /\ stage1_collect_responses query messages = Ok stage1
      /\ stage2_collect_rankings query stage1 = Ok (stage2, label_to_model)
      /\ stage3_synthesize_final query stage1 stage2 = Ok stage3
      /\ mapM stream_source chunks = Ok srcs
      /\ events
         = progress_events (length stage1)
           ++ [complete_event (default (PStr "") (stage3 !! "response"))
                 srcs sid]
      /\ store w'
         = add_assistant_message sid stage1 stage2 stage3
             (add_user_message sid query opened))
   \/ (exists e,
         last events = Some (error_event exn_text e)
         /\ store w' = add_user_message sid query opened
         /\ (snd (retrieve_and_build_messages repr cfg env query) = Raise e
             \/ exists messages chunks,
                  snd (retrieve_and_build_messages repr cfg env query)
                    = Ok (messages, chunks)
                  /\ (stage1_collect_responses query messages = Raise e
                      \/ exists stage1,
                           stage1_collect_responses query messages = Ok stage1
                           /\ (stage2_collect_rankings query stage1 = Raise e
                               \/ exists stage2 label_to_model,
                                    stage2_collect_rankings query stage1
                                      = Ok (stage2, label_to_model)
                                    /\ (stage3_synthesize_final query stage1
                                          stage2 = Raise e
                                        \/ ((exists stage3,
                                               stage3_synthesize_final query
                                                 stage1 stage2 = Ok stage3)
                                            /\ mapM stream_source chunks
                                               = Raise e)))))))
  /\ ((exists answer_text srcs,
         last events = Some (complete_event answer_text srcs sid))
      <-> (exists messages chunks stage1 stage2 label_to_model stage3 srcs,
             snd (retrieve_and_build_messages repr cfg env query)
               = Ok (messages, chunks)
             /\ stage1_collect_responses query messages = Ok stage1
             /\ stage2_collect_rankings query stage1
                = Ok (stage2, label_to_model)
             /\ stage3_synthesize_final query stage1 stage2 = Ok stage3
             /\ mapM stream_source chunks = Ok srcs)).
Proof.
  intros Hrun sid query opened.
  destruct (validate_api_key_cases cfg Store request w) as [[Hv Hkey]|[Hv _]].
  2:{ unfold wordpress_chat_stream, bind in Hrun. by rewrite Hv in Hrun. }
  destruct (String.eqb_spec (strip (message body)) "") as [Hblank|Hquery].
  { unfold wordpress_chat_stream, bind in Hrun.
    by rewrite Hv, Hblank in Hrun. }
  destruct (stream_accepted request body w Hkey Hquery) as (w1 & Hs & Hw1).
  rewrite Hs in Hrun. injection Hrun as <- <-.
  fold sid query in Hw1 |- *. fold opened in Hw1.
  destruct (generator_outcome sid query w1)
    as [(messages & chunks & stage1 & stage2 & l2m & stage3 & srcs
         & H0 & H1 & H2 & H3 & H4 & Hev & Hst)
       |(e & Hlast & Hst & Hfirst)].
  - split.
    + left. exists messages, chunks, stage1, stage2, l2m, stage3, srcs.
      rewrite Hev, Hst, Hw1. done.
    + split.
      * intros _. by exists messages, chunks, stage1, stage2, l2m, stage3, srcs.
      * intros _. rewrite Hev, last_snoc. eauto.
  - split.
    + right. exists e. by rewrite Hlast, Hst, Hw1.
    + rewrite Hlast. split.
      * intros (answer_text & srcs & Heq).
        apply (f_equal (fun event : option (gmap string value) =>
                          event ≫= (fun fields => fields !! "type"))) in Heq.
        by vm_compute in Heq.
      * intros (messages & chunks & stage1 & stage2 & l2m & stage3 & srcs
                & H0 & H1 & H2 & H3 & H4).
        destruct Hfirst as [Hr|(m' & c' & Hr & Hfirst)]; [congruence|].
        rewrite H0 in Hr. injection Hr as <- <-.
        destruct Hfirst as [Hr|(s1 & Hr & Hfirst)]; [congruence|].
        rewrite H1 in Hr. injection Hr as <-.
        destruct Hfirst as [Hr|(s2 & l2m' & Hr & Hfirst)]; [congruence|].
        rewrite H2 in Hr. injection Hr as <- <-.
        destruct Hfirst as [Hr|[_ Hr]]; congruence.
Qed.
End StreamRuns.

Lemma stream_shape_witness :
  exists count k last,
    match fst (stream0 json_config (corpus_env [mixed; doc1])
                 anonymous_request alpha_request world0) with
    | Ok events => events
    | Raise _ => []
    end
    = take k (progress_events count) ++ [last]
    /\ ((k = 6 /\ last !! "type" = Some (PStr "complete"))
        \/ ((k = 1 \/ k = 2 \/ k = 4 \/ k = 6)
            /\ exists e, last = error_event exn_text0 e)).
Proof.
  eapply (stream_shape repr0 json_config (corpus_env [mixed; doc1])
            store0 (list string) get_conversation0 create_conversation0
            add_user_message0 add_assistant_message0 stage1_0 stage2_0
            stage3_0 uuid0 exn_text0 anonymous_request alpha_request world0
            (snd (stream0 json_config (corpus_env [mixed; doc1])
                    anonymous_request alpha_request world0))).
  by vm_compute.
Defined.

(** With a list of numbers in the corpus the stream is the first status
    event and an error event, the retrieval being the step that raised, and
    the user message stays stored; the stream does not end with a complete
    event. *)
Lemma stream_outcome_witness :
  fst (stream0 json_config (corpus_env [numbers]) anonymous_request
         alpha_request world0)
    = Ok [ status_event "Retrieving legal documents...";
           error_event exn_text0 AttributeError ]
  /\ snd (retrieve_and_build_messages repr0 json_config (corpus_env [numbers])
            "alpha gamma") = Raise AttributeError
  /\ (exists (w' : world store0) (events : list (gmap string value)),
        (exists e, last events = Some (error_event exn_text0 e))
        /\ store w' = [("session-0", ["alpha gamma"])])
  /\ ~ exists answer_text srcs,
         last [ status_event "Retrieving legal documents...";
                error_event exn_text0 AttributeError ]
         = Some (complete_event answer_text srcs "session-0").
Proof.
  split; [by vm_compute|]. split; [by vm_compute|].
  destruct (stream_outcome repr0 json_config (corpus_env [numbers])
              store0 (list string) get_conversation0 create_conversation0
              add_user_message0 add_assistant_message0
              stage1_0 stage2_0 stage3_0
              uuid0 exn_text0 anonymous_request alpha_request world0
              (snd (stream0 json_config (corpus_env [numbers])
                      anonymous_request alpha_request world0))
              [ status_event "Retrieving legal documents...";
                error_event exn_text0 AttributeError ])
    as [[(? & ? & ? & ? & ? & ? & ? & Hret & _)|(e & Hlast & Hstore & _)]
        [Hcomplete _]].
  - by vm_compute.
  - by vm_compute in Hret.
  - split.
    + eexists _, _. split; [by exists e|]. rewrite Hstore. by vm_compute.
    + intros Hlast'. apply Hcomplete in Hlast'
        as (? & ? & ? & ? & ? & ? & ? & Hret & _).
      by vm_compute in Hret.
Defined.

Lemma stream_source_of_citation (chunk : gmap string value)
    (citation : SourceCitation) :
  citation_of chunk = Ok citation ->
  stream_source chunk = Ok (citation_dict citation).
Proof.
  intros (text & Hsrc & Htext & Hexc)%citation_of_ok.
  unfold stream_source, citation_dict. rewrite Htext, Hsrc. cbn.
  by rewrite Hexc.
Qed.

(** The stream builds its sources from the same chunks as the chat
    endpoint: whenever the chat endpoint can build its citations, the stream
    sends the same sources and excerpts.  The stream accepts more: it
    succeeds exactly when every content is a string, a list or missing,
    whatever the sources are. *)
Theorem stream_sources_agree (chunks : list (gmap string value)) :
  (forall citations,
     build_sources chunks = Ok citations ->
     mapM stream_source chunks = Ok (map citation_dict citations))
  /\ ((exists srcs, mapM stream_source chunks = Ok srcs)
      <-> Forall (fun chunk =>
                    is_str (default (PStr "") (chunk !! "content"))
                    \/ exists l, default (PStr "") (chunk !! "content")
                                 = PList l)
                 chunks).
Proof.
  split.
  - unfold build_sources.
    induction chunks as [|chunk rest IH]; intros citations; cbn [mapM].
    { by intros [= <-]. }
    destruct (citation_of chunk) as [citation|e] eqn:Hc; [|done].
    rewrite (stream_source_of_citation _ _ Hc). cbn [rbind].
    destruct (mapM citation_of rest) as [cs|e]; [|done]. cbn [rbind].
    intros [= <-]. by rewrite (IH cs eq_refl).
  - induction chunks as [|chunk rest IH]; cbn [mapM].
    { split; [done|]. by exists []. }
    rewrite Forall_cons, <- IH. unfold stream_source at 1, dict_get, is_str.
    destruct (default (PStr "") (chunk !! "content")) as [| | | |text|l|d];
      cbn [obj_slice_to rbind];
      try (split; [by intros [? ?]|];
           by intros [[[? ?]|[? ?]] _]).
    + destruct (mapM stream_source rest) as [srcs|e]; cbn [rbind].
      * split; [|by eauto]. intros _. split; eauto.
      * split; [by intros [? ?]|]. by intros [_ [? ?]].
    + destruct (mapM stream_source rest) as [srcs|e]; cbn [rbind].
      * split; [|by eauto]. intros _. split; eauto.
      * split; [by intros [? ?]|]. by intros [_ [? ?]].
Qed.

(** ** The allowed origins *)

Section OriginFacts.
Import Origins.

Lemma lstrip_head (s : string) :
  lstrip s = "" \/ exists c t, lstrip s = String c t /\ is_space c = false.
Proof.
  induction s as [|c s IH]; cbn [lstrip]; [by left|].
  destruct (is_space c) eqn:Hc; [done|]. right. by exists c, s.
Qed.

Lemma rstrip_idemp (s : string) : rstrip (rstrip s) = rstrip s.
Proof.
  induction s as [|c s IH]; cbn [rstrip]; [done|].
  destruct (rstrip s) as [|c' r] eqn:Hr.
  - destruct (is_space c) eqn:Hc; cbn [rstrip]; [done|]. by rewrite Hc.
  - cbn [rstrip]. cbn [rstrip] in IH.
    by destruct (rstrip r); [destruct (is_space c')|]; rewrite IH.
Qed.

Lemma rstrip_head (c : ascii) (s : string) :
  is_space c = false -> exists r, rstrip (String c s) = String c r.
Proof.
  intros Hc. cbn [rstrip]. destruct (rstrip s); rewrite ?Hc; eauto.
Qed.

(** Stripping a stripped string changes nothing. *)
Lemma strip_idemp (s : string) : strip (strip s) = strip s.
Proof.
  unfold strip.
  destruct (lstrip_head s) as [->|(c & t & -> & Hc)]; [done|].
  destruct (rstrip_head c t Hc) as [r Hr].
  rewrite Hr at 1. cbn [lstrip]. rewrite Hc, <- Hr. apply rstrip_idemp.
Qed.

Lemma has_char_lstrip (c : ascii) (s : string) :
  has_char c s = false -> has_char c (lstrip s) = false.
Proof.
  induction s as [|c' s IH]; cbn [lstrip has_char]; [done|].
  intros [H1 H2]%orb_false_elim.
  destruct (is_space c'); [by apply IH|]. cbn [has_char]. by rewrite H1, H2.
Qed.

Lemma has_char_rstrip (c : ascii) (s : string) :
  has_char c s = false -> has_char c (rstrip s) = false.
Proof.
  induction s as [|c' s IH]; cbn [rstrip has_char]; [done|].
  intros [H1 H2]%orb_false_elim. specialize (IH H2).
  destruct (rstrip s).
  - destruct (is_space c'); [done|]. cbn [has_char]. by rewrite H1.
  - cbn [has_char] in *. by rewrite H1, IH.
Qed.

Lemma split_pieces (sep : ascii) (s : string) :
  Forall (fun piece => has_char sep piece = false) (split sep s).
Proof.
  induction s as [|c s IH]; cbn [split]; [by constructor|].
  destruct (Ascii.eqb c sep) eqn:Hc; [by constructor|].
  destruct (split sep s) as [|piece pieces]; [by repeat constructor; cbn; rewrite Hc|].
  apply Forall_cons in IH as [Hp Hps].
  constructor; [|done]. cbn [has_char]. by rewrite Hc, Hp.
Qed.

(** Joining the pieces of a split with the separator gives the string
    back. *)
Lemma join_split (sep : ascii) (s : string) :
  join (String sep "") (split sep s) = s.
Proof.
  induction s as [|c s IH]; cbn [split]; [done|].
  destruct (Ascii.eqb_spec c sep) as [->|_].
  - destruct (split sep s) as [|piece pieces] eqn:Hs; [by destruct s|].
    change (join (String sep "") ("" :: piece :: pieces))
      with ("" +:+ String sep "" +:+ join (String sep "") (piece :: pieces)).
    by rewrite IH.
  - destruct (split sep s) as [|piece pieces] eqn:Hs;
      [cbn in IH; by rewrite <- IH|].
    destruct pieces as [|piece' pieces].
    + cbn [join] in *. by rewrite IH.
    + change (join (String sep "") (String c piece :: piece' :: pieces))
        with (String c piece +:+ String sep ""
              +:+ join (String sep "") (piece' :: pieces)).
      rewrite append_cons. f_equal. exact IH.
Qed.

(** Whatever the environment holds, every allowed origin is non-empty, has
    no white space at either end and no comma; the two local development
    origins are always allowed after them; and a setting of commas and
    white space only, the empty string included, allows no other origin. *)
Theorem allowed_origins_clean (getenv : option string) :
  (forall origin, origin ∈ ALLOWED_ORIGINS getenv ->
     origin ≠ "" /\ strip origin = origin /\ has_char "," origin = false)
  /\ cors_origins getenv
     = ALLOWED_ORIGINS getenv
       ++ ["http://localhost:5173"; "http://localhost:3000"]
  /\ (forall raw, getenv = Some raw ->
        Forall (fun piece => all_space piece = true) (split "," raw) ->
        cors_origins getenv
        = ["http://localhost:5173"; "http://localhost:3000"])
  /\ ALLOWED_ORIGINS None
     = ["https://thailawonline.com"; "https://www.thailawonline.com"].
Proof.
  split; [|split; [done|split; [|by vm_compute]]].
  - intros origin. unfold ALLOWED_ORIGINS, parse_origins.
    pose proof (split_pieces ","
      (default "https://thailawonline.com,https://www.thailawonline.com"
         getenv)) as Hpieces.
    rewrite list_elem_of_In, in_flat_map.
    intros (piece & Hin%list_elem_of_In & Horigin).
    rewrite Forall_forall in Hpieces. specialize (Hpieces piece Hin).
    destruct (String.eqb_spec (strip piece) "") as [|Hne];
      cbn [negb] in Horigin; [done|].
    destruct Horigin as [<-|[]].
    split; [done|]. split; [apply strip_idemp|].
    by apply has_char_rstrip, has_char_lstrip.
  - intros raw -> Hblank. unfold cors_origins, ALLOWED_ORIGINS, parse_origins.
    cbn [default from_option id].
    induction Hblank as [|piece pieces Hp _ IH]; [done|].
    cbn [flat_map]. apply strip_empty_iff in Hp. rewrite Hp. exact IH.
Qed.
End OriginFacts.

(** ** The Notion adapter, from the replies of the API *)

Section NotionFacts.
Import NotionPages.

Lemma mapM_as_str (texts : list string) : mapM as_str (map JStr texts) = Ok texts.
Proof.
  induction texts as [|t texts IH]; cbn [map mapM as_str rbind]; [done|].
  by rewrite IH.
Qed.

Lemma field_here (k : string) (v : json) (fields : list (string * json)) :
  field ((k, v) :: fields) k = Some v.
Proof. unfold field. cbn [find fst]. by rewrite String.eqb_refl. Qed.

Lemma field_next (k k' : string) (v : json) (fields : list (string * json)) :
  k' ≠ k -> field ((k', v) :: fields) k = field fields k.
Proof.
  intros Hne. unfold field. cbn [find fst].
  by destruct (String.eqb_spec k' k).
Qed.

Lemma mapM_plain_text (texts : list string) :
  mapM (fun rt => jget rt "plain_text" (JStr ""))
       (map (fun t => JObj [("plain_text", JStr t)]) texts)
  = Ok (map JStr texts).
Proof.
  induction texts as [|t texts IH]; cbn [map mapM]; [done|].
  rewrite IH. unfold jget. by rewrite field_here.
Qed.

Lemma block_texts_text_block (kind : string) (texts : list string) :
  kind ≠ "type" -> block_texts (text_block kind texts) = Ok (map JStr texts).
Proof.
  intros Hkind. unfold block_texts, text_block, jget at 1.
  rewrite field_here. cbn [default from_option id rbind jget_at].
  rewrite field_next, field_here by done.
  cbn [default from_option id rbind jget]. rewrite field_here.
  cbn [default from_option id rbind jiter].
  apply mapM_plain_text.
Qed.

Lemma collect_texts_text_blocks (blocks : list (string * list string))
    (text_parts : list json) :
  Forall (fun b => fst b ≠ "type") blocks ->
  collect_texts (map (fun b => text_block (fst b) (snd b)) blocks) text_parts
  = Ok (text_parts ++ map JStr (concat (map snd blocks))).
Proof.
  intros Hkinds. revert text_parts.
  induction Hkinds as [|[kind texts] blocks Hkind _ IH]; intros text_parts;
    cbn [map collect_texts concat fst snd].
  { by rewrite app_nil_r. }
  rewrite block_texts_text_block by done. cbn [rbind].
  by rewrite IH, map_app, app_assoc.
Qed.

(** For a reply that lists text blocks, of whatever kinds, the content of
    the page is the plain texts of all blocks in order, one on each line,
    and nothing is printed. *)
Theorem page_content_of_text_blocks (page_id : json)
    (blocks : list (string * list string)) :
  Forall (fun b => fst b ≠ "type") blocks ->
  _get_page_content page_id
    (Some (listing (map (fun b => text_block (fst b) (snd b)) blocks)))
  = ([], join nl (concat (map snd blocks))).
Proof.
  intros Hkinds. unfold _get_page_content, page_text, listing, jget.
  rewrite field_here. cbn [default from_option id rbind jiter].
  rewrite collect_texts_text_blocks by done. cbn [rbind app].
  unfold jjoin. by rewrite mapM_as_str.
Qed.

Lemma page_content_of_text_blocks_witness :
  _get_page_content (JStr "p1")
    (Some (listing (map (fun b => text_block (fst b) (snd b))
                        [("heading_1", ["Torts"]);
                         ("paragraph", ["Section"; "420"])])))
  = ([], join nl (concat (map snd [("heading_1", ["Torts"]);
                                   ("paragraph", ["Section"; "420"])]))).
Proof.
  apply (page_content_of_text_blocks (JStr "p1")
           [("heading_1", ["Torts"]); ("paragraph", ["Section"; "420"])]).
  repeat constructor; discriminate.
Defined.

(** A chunk built from a Notion page. *)
Lemma collect_pages_results (blocks_of : json -> option json)
    (P : gmap string value -> Prop) (pages : list json) (log : list page_log)
    (results found : list (gmap string value)) :
  (forall content title,
     content ≠ "" ->
     P {[ "content" := PStr content;
          "source" := PStr (if negb (String.eqb title "")
                            then "Notion: " +:+ title else "Notion") ]}) ->
  Forall P results ->
  snd (collect_pages blocks_of pages log results) = Ok found ->
  Forall P found /\ length found <= length results + length pages.
Proof.
  intros HP. revert log results.
  induction pages as [|page rest IH]; intros log results Hres;
    cbn [collect_pages].
  { intros [= <-]. split; [done|lia]. }
  destruct (_extract_page_title page) as [title|e]; [|done].
  destruct (jsubscript page "id") as [page_id|e]; [|done].
  destruct (_get_page_content page_id (blocks_of page_id)) as [plog content].
  destruct (String.eqb_spec content "") as [|Hcontent]; cbn [negb].
  - intros H. destruct (IH _ _ Hres H) as [? ?]. split; [done|cbn; lia].
  - intros H. apply IH in H as [? Hlen].
    + split; [done|]. rewrite length_app in Hlen. cbn in *. lia.
    + apply Forall_app. split; [done|]. apply Forall_singleton. by apply HP.
Qed.

(** Whatever the API replies, every chunk of the Notion adapter has a
    non-empty content and the source "Notion", or "Notion: " followed by a
    non-empty title; and there are at most as many chunks as pages
    found. *)
Theorem notion_results_shape (search_reply : json)
    (blocks_of : json -> option json) (results : list (gmap string value)) :
  snd (notion_reply_of true (Some search_reply) blocks_of)
    = NotionResults results ->
  Forall (fun c => exists content src,
            c = {[ "content" := PStr content; "source" := PStr src ]}
            /\ content ≠ ""
            /\ (src = "Notion"
                \/ exists title, title ≠ "" /\ src = "Notion: " +:+ title))
         results
  /\ exists pages,
       rbind (jget search_reply "results" (JArr [])) jiter = Ok pages
       /\ length results <= length pages.
Proof.
  unfold notion_reply_of. cbn [negb].
  destruct (rbind (jget search_reply "results" (JArr [])) jiter)
    as [pages|e]; [|done].
  pose proof (collect_pages_results blocks_of
    (fun c => exists content src,
       c = {[ "content" := PStr content; "source" := PStr src ]}
       /\ content ≠ ""
       /\ (src = "Notion"
           \/ exists title, title ≠ "" /\ src = "Notion: " +:+ title))
    pages [] []) as Hshape.
  destruct (collect_pages blocks_of pages [] []) as [log [found|e]];
    [|done].
  cbn [snd]. intros [= <-].
  destruct (Hshape found) as [Hall Hlen]; [|done|done|].
  - intros content title Hcontent. eexists _, _. split; [done|].
    split; [done|].
    destruct (String.eqb_spec title ""); cbn [negb]; [by left|].
    right. by exists title.
  - split; [done|]. exists pages. split; [done|]. cbn in Hlen. lia.
Qed.

Lemma notion_results_shape_witness :
  exists pages,
    rbind (jget (listing [page0 "p1" "Torts"; page0 "p2" "Gone";
                          page0 "p3" ""])
             "results" (JArr [])) jiter = Ok pages
    /\ length [ ({[ "content" := PStr ("Torts" +:+ nl +:+ "Section" +:+ nl
                                       +:+ "420");
                    "source" := PStr "Notion: Torts" ]} : gmap string value);
                {[ "content" := PStr "Lease"; "source" := PStr "Notion" ]} ]
       <= length pages.
Proof.
  apply (notion_results_shape
           (listing [page0 "p1" "Torts"; page0 "p2" "Gone"; page0 "p3" ""])
           blocks0).
  by vm_compute.
Defined.

Lemma collect_pages_log (blocks_of : json -> option json) (pages : list json)
    (log log' : list page_log) (results : list (gmap string value)) :
  snd (collect_pages blocks_of pages log results)
  = snd (collect_pages blocks_of pages log' results).
Proof.
  revert log log' results.
  induction pages as [|page rest IH]; intros log log' results;
    cbn [collect_pages]; [done|].
  destruct (_extract_page_title page) as [title|e]; [|done].
  destruct (jsubscript page "id") as [page_id|e]; [|done].
  destruct (_get_page_content page_id (blocks_of page_id)) as [plog content].
  destruct (negb (String.eqb content "")); apply IH.
Qed.

Lemma collect_pages_app (blocks_of : json -> option json)
    (pages1 pages2 : list json) (log : list page_log)
    (results : list (gmap string value)) :
  snd (collect_pages blocks_of (pages1 ++ pages2) log results)
  = match snd (collect_pages blocks_of pages1 log results) with
    | Ok found => snd (collect_pages blocks_of pages2 [] found)
    | Raise e => Raise e
    end.
Proof.
  revert log results.
  induction pages1 as [|page rest IH]; intros log results;
    cbn [app collect_pages snd].
  { apply collect_pages_log. }
  destruct (_extract_page_title page) as [title|e]; [|done].
  destruct (jsubscript page "id") as [page_id|e]; [|done].
  destruct (_get_page_content page_id (blocks_of page_id)) as [plog content].
  destruct (negb (String.eqb content "")); apply IH.
Qed.

Lemma notion_reply_of_listing (blocks_of : json -> option json)
    (pages : list json) :
  snd (notion_reply_of true (Some (listing pages)) blocks_of)
  = match snd (collect_pages blocks_of pages [] []) with
    | Ok results => NotionResults results
    | Raise _ => NotionFailed
    end.
Proof.
  unfold notion_reply_of, listing, jget. rewrite field_here.
  cbn [negb default from_option id rbind jiter].
  by destruct (collect_pages blocks_of pages [] []) as [log [results|e]].
Qed.

(** A page whose content cannot be fetched, or is empty, is left out and the
    other pages are kept: the result is the one of the listing without that
    page. *)
Theorem page_without_content_is_skipped (blocks_of : json -> option json)
    (before after : list json) (page page_id : json) (title : string) :
  _extract_page_title page = Ok title ->
  jsubscript page "id" = Ok page_id ->
  snd (_get_page_content page_id (blocks_of page_id)) = "" ->
  snd (notion_reply_of true (Some (listing (before ++ page :: after)))
         blocks_of)
  = snd (notion_reply_of true (Some (listing (before ++ after))) blocks_of).
Proof.
  intros Htitle Hid Hcontent.
  rewrite !notion_reply_of_listing, !collect_pages_app.
  destruct (snd (collect_pages blocks_of before [] [])) as [found|e]; [|done].
  cbn [collect_pages]. rewrite Htitle, Hid.
  destruct (_get_page_content page_id (blocks_of page_id)) as [plog content].
  cbn [snd] in Hcontent. subst content. cbn [String.eqb negb].
  by rewrite (collect_pages_log _ _ _ []).
Qed.

(** The page "p2", whose blocks cannot be fetched, is left out. *)
Lemma page_without_content_is_skipped_witness :
  snd (notion_reply_of true
         (Some (listing ([page0 "p1" "Torts"]
                         ++ page0 "p2" "Gone" :: [page0 "p3" ""])))
         blocks0)
  = snd (notion_reply_of true
           (Some (listing ([page0 "p1" "Torts"] ++ [page0 "p3" ""])))
           blocks0).
Proof.
  apply (page_without_content_is_skipped blocks0 [page0 "p1" "Torts"]
           [page0 "p3" ""] (page0 "p2" "Gone") (JStr "p2") "Gone");
    reflexivity.
Defined.

Lemma collect_pages_raises (blocks_of : json -> option json)
    (pages : list json) (page : json) (log : list page_log)
    (results : list (gmap string value)) :
  page ∈ pages ->
  (forall page_id, jsubscript page "id" ≠ Ok page_id) ->
  exists e, snd (collect_pages blocks_of pages log results) = Raise e.
Proof.
  intros Hin Hid. revert log results.
  induction pages as [|page' rest IH]; intros log results;
    [by apply elem_of_nil in Hin|].
  cbn [collect_pages].
  destruct (_extract_page_title page') as [title|e]; [|by exists e].
  destruct (jsubscript page' "id") as [page_id|e] eqn:Hpage; [|by exists e].
  apply elem_of_cons in Hin as [->|Hin].
  { by destruct (Hid page_id). }
  destruct (_get_page_content page_id (blocks_of page_id))
    as [plog content].
  destruct (negb (String.eqb content "")); by apply IH.
Qed.

(** One page without an id among the pages found, or one that is not an
    object, discards the results of all the pages: the adapter, enabled and
    configured, prints its error line and returns the empty list. *)
Theorem page_without_id_voids_search (cfg : config) (env : environment)
    (blocks_of : json -> option json) (pages : list json) (page : json)
    (query : string) (max_results : Z) :
  NOTION_ENABLED cfg = true ->
  NOTION_API_KEY cfg ≠ "" ->
  NOTION_DATABASE_ID cfg ≠ "" ->
  notion env = snd (notion_reply_of true (Some (listing pages)) blocks_of) ->
  page ∈ pages ->
  (forall page_id, jsubscript page "id" ≠ Ok page_id) ->
  search_notion cfg env query max_results = ([LogNotionError], Ok []).
Proof.
  intros Hon Hkey Hdb Henv Hin Hid. unfold search_notion.
  rewrite Hon. cbn [negb].
  destruct (String.eqb_spec (NOTION_API_KEY cfg) ""); [done|].
  destruct (String.eqb_spec (NOTION_DATABASE_ID cfg) ""); [done|].
  cbn [orb]. rewrite Henv, notion_reply_of_listing.
  destruct (collect_pages_raises blocks_of pages page [] [] Hin Hid)
    as [e He].
  by rewrite He.
Qed.

Lemma page_without_id_voids_search_witness :
  search_notion merge_config
    {| json_dir := None; mysql := MysqlFailed;
       notion := snd (notion_reply_of true
                        (Some (listing [page0 "p1" "Torts"; JObj []]))
                        blocks0) |}
    "torts" 5
  = ([LogNotionError], Ok []).
Proof.
  apply (page_without_id_voids_search merge_config _ blocks0
           [page0 "p1" "Torts"; JObj []] (JObj []));
    first [ reflexivity
          | discriminate
          | apply list_elem_of_further, list_elem_of_here
          | intros page_id; vm_compute; discriminate ].
Defined.

Lemma first_title_skips (before rest : list json) :
  Forall (fun prop => exists fields,
            prop = JObj fields
            /\ is_title (default JNull (field fields "type")) = false)
         before ->
  first_title (before ++ rest) = first_title rest.
Proof.
  induction 1 as [|prop before (fields & -> & Htype) _ IH]; [done|].
  cbn [app first_title jget rbind]. by rewrite Htype.
Qed.

(** The title of a page is the text of its first property of type title,
    its parts joined without a separator; the properties after that one are
    not looked at, and a page with no such property has the empty title. *)
Theorem page_title_is_first_title_property (page_fields : list (string * json))
    (before after : list (string * json)) (name : string)
    (title_fields : list (string * json)) (parts : list string) :
  Forall (fun kv => exists fields,
            snd kv = JObj fields
            /\ is_title (default JNull (field fields "type")) = false)
         before ->
  (field page_fields "properties"
     = Some (JObj (before ++ (name, JObj title_fields) :: after))
   -> field title_fields "type" = Some (JStr "title")
   -> field title_fields "title"
      = Some (JArr (map (fun t => JObj [("plain_text", JStr t)]) parts))
   -> _extract_page_title (JObj page_fields) = Ok (join "" parts))
  /\ (field page_fields "properties" = Some (JObj before) ->
      _extract_page_title (JObj page_fields) = Ok "").
Proof.
  intros Hbefore.
  assert (Hskip : Forall (fun prop => exists fields,
                    prop = JObj fields
                    /\ is_title (default JNull (field fields "type")) = false)
                  (map snd before)).
  { induction Hbefore as [|kv before H _ IH]; [done|].
    cbn [map]. by constructor. }
  unfold _extract_page_title, jget. split.
  - intros -> Htype Htitle.
    cbn [default from_option id rbind jvalues].
    rewrite map_app, first_title_skips by done.
    cbn [map snd first_title jget rbind].
    rewrite Htype, Htitle. cbn [default from_option id is_title String.eqb
      Ascii.eqb Bool.eqb rbind jiter].
    rewrite mapM_plain_text. cbn [rbind]. unfold jjoin.
    by rewrite mapM_as_str.
  - intros ->. cbn [default from_option id rbind jvalues].
    rewrite <- (app_nil_r (map snd before)).
    by rewrite first_title_skips.
Qed.

(** The property after the title is a number, and is never reached. *)
Lemma page_title_is_first_title_property_witness :
  _extract_page_title
    (JObj [ ("id", JStr "p1");
            ("properties",
             JObj ([("Tags", JObj [("type", JStr "multi_select")])]
                   ++ ("Name", JObj [ ("type", JStr "title");
                                      ("title",
                                       JArr (map (fun t =>
                                                    JObj [("plain_text", JStr t)])
                                                 ["Civil "; "Code"])) ])
                      :: [("Broken", JNum 1)])) ])
  = Ok (join "" ["Civil "; "Code"]).
Proof.
  destruct (page_title_is_first_title_property
              [ ("id", JStr "p1");
                ("properties",
                 JObj ([("Tags", JObj [("type", JStr "multi_select")])]
                       ++ ("Name", JObj [ ("type", JStr "title");
                                          ("title",
                                           JArr (map (fun t =>
                                                        JObj [("plain_text", JStr t)])
                                                     ["Civil "; "Code"])) ])
                          :: [("Broken", JNum 1)])) ]
              [("Tags", JObj [("type", JStr "multi_select")])]
              [("Broken", JNum 1)] "Name"
              [ ("type", JStr "title");
                ("title", JArr (map (fun t => JObj [("plain_text", JStr t)])
                                    ["Civil "; "Code"])) ]
              ["Civil "; "Code"]) as [Htitle _].
  - repeat constructor. by eexists.
  - apply Htitle; reflexivity.
Defined.
End NotionFacts.

(** ** The gate of the chat handler, both ways *)

Section HandlerGate.
Context (repr : value -> string) (cfg : config) (env : environment).
Context (Store Conversation : Type).
Context (get_conversation : string -> Store -> option Conversation).
Context (create_conversation : string -> Store -> Store).
Context (add_user_message : string -> string -> Store -> Store).
Context (add_assistant_message :
  string -> list (gmap string value) -> list (gmap string value) ->
  gmap string value -> Store -> Store).
Context (run_full_council :
  string -> list (gmap string value) ->
  result (list (gmap string value) * list (gmap string value)
          * gmap string value * gmap string value)).
Context (uuid4 : nat -> string).

Local Abbreviation chat :=
  (wordpress_chat repr cfg env Store Conversation get_conversation
     create_conversation add_user_message add_assistant_message
     run_full_council uuid4).

(** Past the gate the handler calls its collaborators, whatever the
    outcome. *)
Lemma chat_past_gate_calls (request : Request) (body : ChatRequest)
    (w : world Store) :
  ~ key_rejected cfg request ->
  strip (message body) ≠ "" ->
  length (calls w) < length (calls (snd (chat request body w))).
Proof.
  intros Hkey Hquery. unfold wordpress_chat, bind.
  destruct (validate_api_key_cases cfg Store request w) as [[Hv _]|[_ Hbad]];
    [rewrite Hv|done].
  destruct (String.eqb_spec (strip (message body)) "") as [|_]; [done|].
  destruct (String.eqb (session_id body) "");
    cbn [draw_uuid4 ret raise called update_store run_logged lift
         store stdout calls uuids_drawn fst snd].
  all: destruct (get_conversation _ (store w));
    cbn [draw_uuid4 ret raise called update_store run_logged lift
         store stdout calls uuids_drawn fst snd].
  all: destruct (retrieve_and_build_messages repr cfg env _)
         as [log [[messages chunks]|e]];
    cbn [draw_uuid4 ret raise called update_store run_logged lift
         store stdout calls uuids_drawn fst snd].
  all: try (rewrite !length_app; cbn [length]; lia).
  all: destruct (run_full_council _ messages)
         as [[[[stage1 stage2] stage3] metadata]|e];
    cbn [calls snd]; try (rewrite !length_app; cbn [length]; lia).
  all: destruct (build_sources chunks) as [srcs|e];
    cbn [calls snd]; try (rewrite !length_app; cbn [length]; lia).
  all: destruct (mapM _ stage1) as [models_used|e];
    cbn [calls snd]; try (rewrite !length_app; cbn [length]; lia).
  all: unfold lift; cbn [calls snd]; rewrite !length_app; cbn [length]; lia.
Qed.

(** The handler answers 401 in the state it found exactly when the key is
    rejected, and 400 in the state it found exactly when the key is accepted
    and the message holds white space only: a message with one visible
    character is never rejected as empty. *)
Theorem chat_gate_iff (request : Request) (body : ChatRequest)
    (w : world Store) :
  (chat request body w
     = (Raise (HTTPException 401 "Invalid or missing API key"), w)
   <-> key_rejected cfg request)
  /\ (chat request body w
        = (Raise (HTTPException 400 "Message cannot be empty"), w)
      <-> ~ key_rejected cfg request /\ all_space (message body) = true).
Proof.
  assert (Hpast : ~ key_rejected cfg request ->
                  strip (message body) ≠ "" ->
                  forall r, chat request body w ≠ (r, w)).
  { intros Hkey Hquery r Hrun.
    pose proof (chat_past_gate_calls request body w Hkey Hquery) as Hlen.
    rewrite Hrun in Hlen. cbn [snd] in Hlen. lia. }
  destruct (String.eqb_spec (strip (message body)) "") as [Hblank|Hquery].
  - destruct (wordpress_chat_blank repr cfg env Store Conversation
                get_conversation create_conversation add_user_message
                add_assistant_message run_full_council uuid4
                request body w Hblank) as [[-> Hbad]|[-> Hkey]].
    + split; [done|]. split; [done|]. by intros [? _].
    + apply strip_empty_iff in Hblank. split; [|done]. split; [done|tauto].
  - assert (Hvisible : all_space (message body) ≠ true).
    { by intros ?%strip_empty_iff. }
    split.
    + split.
      * intros Hrun.
        destruct (validate_api_key_cases cfg Store request w)
          as [[_ Hkey]|[_ Hbad]]; [|done].
        by destruct (Hpast Hkey Hquery _ Hrun).
      * intros Hbad. unfold wordpress_chat, bind.
        by destruct (validate_api_key_cases cfg Store request w)
          as [[_ Hkey]|[-> _]].
    + split; [|by intros [_ ?]].
      intros Hrun.
      destruct (validate_api_key_cases cfg Store request w)
        as [[_ Hkey]|[Hv _]].
      * by destruct (Hpast Hkey Hquery _ Hrun).
      * unfold wordpress_chat, bind in Hrun. by rewrite Hv in Hrun.
Qed.
End HandlerGate.
